(** * OCR_Recognition: a shallow embedding of [opencv_with_users.py]

    The Python module is embedded as functions in a state-and-exception
    monad over an explicit [world]: the MongoDB collection of users, the
    interactive input channel, the camera device, the file system, the OCR
    endpoint and a chronological trace of observable effects.  Every
    definition cites the lines of [src/opencv_with_users.py] it embeds. *)

From Stdlib Require Import String Ascii List ZArith Bool Arith Lia.
From Stdlib Require Import Floats.PrimFloat.
Import ListNotations.
Set Warnings "-register-all".
Local Open Scope string_scope.
Local Open Scope list_scope.

(* ===================================================================== *)
(** ** Python values and exceptions *)
(* ===================================================================== *)

Module Py.

(** What [response.json()] yields: [json.loads] maps JSON [null] to
    Python's [None], arrays to lists and objects to dicts with string
    keys.  [JNull] is therefore also the embedding of [None]. *)
Inductive json : Type :=
| JNull
| JBool (b : bool)
| JInt (z : Z)
| JFloat (f : float)
| JStr (s : string)
| JArr (items : list json)
| JObj (fields : list (string * json)).

(** The classes of the exceptions the module raises or meets.  All of
    them derive from Python's [Exception], which is what the handlers of
    the module ([except Exception as e]) catch. *)
Inductive exc_class : Type :=
| ValueError | RuntimeError | TypeError | KeyError | IndexError | AttributeError
| EOFError | OSError | FileNotFoundError | JSONDecodeError | ConnectionError
| PyMongoError.

Record exc : Type := Exc { exc_cls : exc_class; exc_msg : string }.

Inductive result (A : Type) : Type :=
| Ok (a : A)
| Raise (e : exc).
Arguments Ok {A} a.
Arguments Raise {A} e.

(** Truth value of an optional string argument: [None] and [''] are
    falsy. *)
Definition truthy (o : option string) : bool :=
  match o with
  | Some s => negb (s =? "")
  | None => false
  end.

(** [bool(v)] for a decoded JSON value. *)
Definition py_bool (v : json) : bool :=
  match v with
  | JNull => false
  | JBool b => b
  | JInt z => negb (z =? 0)%Z
  | JFloat f => negb (PrimFloat.eqb f PrimFloat.zero)
  | JStr s => negb (s =? "")
  | JArr items => match items with [] => false | _ :: _ => true end
  | JObj fields => match fields with [] => false | _ :: _ => true end
  end.

(** [type(v).__name__], used in the messages of [TypeError]. *)
Definition type_name (v : json) : string :=
  match v with
  | JNull => "NoneType"
  | JBool _ => "bool"
  | JInt _ => "int"
  | JFloat _ => "float"
  | JStr _ => "str"
  | JArr _ => "list"
  | JObj _ => "dict"
  end.

(** Lookup of a key in a dict, kept as the list of its items. *)
Fixpoint dict_get (key : string) (fields : list (string * json)) : option json :=
  match fields with
  | [] => None
  | (k, v) :: rest => if k =? key then Some v else dict_get key rest
  end.

(** [sub in s] on strings. *)
Fixpoint is_substring (sub s : string) : bool :=
  if prefix sub s then true
  else match s with
       | EmptyString => false
       | String _ rest => is_substring sub rest
       end.

(** [key in v] for a string [key]: membership among the keys of a dict,
    among the elements of a list, substring test on a string; a
    [TypeError] on values that are not containers. *)
Definition py_contains (key : string) (v : json) : result bool :=
  match v with
  | JObj fields =>
      Ok (match dict_get key fields with Some _ => true | None => false end)
  | JArr items =>
      Ok (existsb (fun x => match x with JStr s => s =? key | _ => false end) items)
  | JStr s => Ok (is_substring key s)
  | _ => Raise (Exc TypeError
                  ("argument of type '" ++ type_name v ++ "' is not iterable"))
  end.

(** [v[key]] for a string [key]. *)
Definition py_getitem_key (v : json) (key : string) : result json :=
  match v with
  | JObj fields =>
      match dict_get key fields with
      | Some x => Ok x
      | None => Raise (Exc KeyError ("'" ++ key ++ "'"))
      end
  | JArr _ => Raise (Exc TypeError "list indices must be integers or slices, not str")
  | JStr _ => Raise (Exc TypeError "string indices must be integers, not 'str'")
  | _ => Raise (Exc TypeError ("'" ++ type_name v ++ "' object is not subscriptable"))
  end.

(** [v[0]]. *)
Definition py_getitem_0 (v : json) : result json :=
  match v with
  | JArr (x :: _) => Ok x
  | JArr [] => Raise (Exc IndexError "list index out of range")
  | JStr (String c _) => Ok (JStr (String c EmptyString))
  | JStr EmptyString => Raise (Exc IndexError "string index out of range")
  | JObj _ => Raise (Exc KeyError "0")
  | _ => Raise (Exc TypeError ("'" ++ type_name v ++ "' object is not subscriptable"))
  end.

End Py.

Export Py.

(* ===================================================================== *)
(** ** The world the module runs in, and its monad *)
(* ===================================================================== *)

(** A document of [user_collection].  [extracted_content] holds the [text]
    of each [{"text": ...}] record pushed so far, oldest first (a missing
    field is the empty sequence). *)
Record document : Type := Doc {
  username : string;
  password : string;
  extracted_content : list string
}.

(** A captured frame, the numpy array of the source, is kept opaque. *)
Definition frame : Type := string.

(** The camera behind [cv2.VideoCapture(0)]. *)
Record device : Type := Device {
  available : bool;        (* can device 0 be opened at all *)
  feed : list frame;       (* the frames [read()] will deliver *)
  opened : bool;           (* is the device currently held open *)
  releases : nat           (* number of calls of [release()] *)
}.

(** The body of a POST to the OCR endpoint (lines 52-61). *)
Inductive request : Type :=
| PostFile (file : string) (apikey language : string)
| PostUrl (url : string) (apikey language : string).

(** [requests.Response]: the status code, and what [response.json()]
    gives (it raises when the body is not JSON). *)
Record response : Type := Response {
  status_code : Z;
  json_body : result json
}.

(** Modelled from the spec: the module [error_handler] is not under src/;
    these are the three names the client evaluates (lines 64, 66, 68), which
    the spec calls Success, BadRequest and ServerError. *)
Inductive error_handler : Type := SUCCESS | BAD_REQUEST | SERVER_ERROR.

(** Observable effects, recorded in the order they happen. *)
Inductive event : Type :=
| Print (line : string)                          (* print(line) *)
| PrintJson (label : string) (value : json)      (* print(label, value) *)
| PrintList (label : string) (items : list string)
| Prompt (message : string)                      (* input / getpass.getpass *)
| Post (req : request)                           (* requests.post *)
| Classify (code : error_handler)                (* error_handler.<code> *)
| ReadJson                                       (* response.json() *)
| ShowImage (title : string).                    (* cv2.imshow ... *)

Record world : Type := World {
  users : list document;                 (* user_collection, in insertion order *)
  db_faults : list (option exc);         (* outcome of the next database calls *)
  stdin : list string;                   (* lines still to be typed by the user *)
  camera : device;
  files : list (string * string);        (* path, content *)
  ocr_service : request -> result response;   (* the endpoint at [ocr_url] *)
  trace : list event
}.

Definition set_users (us : list document) (w : world) : world :=
  World us (db_faults w) (stdin w) (camera w) (files w) (ocr_service w) (trace w).
Definition set_db_faults (fs : list (option exc)) (w : world) : world :=
  World (users w) fs (stdin w) (camera w) (files w) (ocr_service w) (trace w).
Definition set_stdin (ls : list string) (w : world) : world :=
  World (users w) (db_faults w) ls (camera w) (files w) (ocr_service w) (trace w).
Definition set_camera (d : device) (w : world) : world :=
  World (users w) (db_faults w) (stdin w) d (files w) (ocr_service w) (trace w).
Definition set_files (fs : list (string * string)) (w : world) : world :=
  World (users w) (db_faults w) (stdin w) (camera w) fs (ocr_service w) (trace w).
Definition emit (e : event) (w : world) : world :=
  World (users w) (db_faults w) (stdin w) (camera w) (files w) (ocr_service w)
        (trace w ++ [e]).

(** State and exceptions: an exception keeps the effects made before it. *)
Definition M (A : Type) : Type := world -> result A * world.

Definition ret {A} (a : A) : M A := fun w => (Ok a, w).
Definition raise {A} (e : exc) : M A := fun w => (Raise e, w).
Definition bind {A B} (m : M A) (k : A -> M B) : M B :=
  fun w => match m w with
           | (Ok a, w') => k a w'
           | (Raise e, w') => (Raise e, w')
           end.
(** [try: body except Exception as e: handler e]. *)
Definition try_except {A} (body : M A) (handler : exc -> M A) : M A :=
  fun w => match body w with
           | (Ok a, w') => (Ok a, w')
           | (Raise e, w') => handler e w'
           end.
Definition lift {A} (r : result A) : M A := fun w => (r, w).
Definition log (e : event) : M unit := fun w => (Ok tt, emit e w).

Declare Scope py_scope.
Delimit Scope py_scope with py.
Notation "x <- m ;; k" := (bind m (fun x => k))
  (at level 61, m at next level, right associativity) : py_scope.
Notation "m ;; k" := (bind m (fun _ => k))
  (at level 61, right associativity) : py_scope.
Local Open Scope py_scope.

(* ===================================================================== *)
(** ** OCRClient: [upload_and_extract_content] (lines 27-76) *)
(* ===================================================================== *)

Module OCRClient.

Definition value (o : option string) : string :=
  match o with Some s => s | None => "" end.

Fixpoint lookup_file (path : string) (fs : list (string * string)) : option string :=
  match fs with
  | [] => None
  | (p, c) :: rest => if p =? path then Some c else lookup_file path rest
  end.

(** [open(path, 'rb')] and reading the file for the upload.  [files]
    holds the readable files; a path that is not among them does not
    exist, and [open] raises [FileNotFoundError] for it. *)
Definition open_rb (path : string) : M string :=
  fun w => match lookup_file path (files w) with
           | Some c => (Ok c, w)
           | None =>
               (Raise (Exc FileNotFoundError
                           ("[Errno 2] No such file or directory: '" ++ path ++ "'")), w)
           end.

(** [requests.post(ocr_url, ...)]. *)
Definition post (req : request) : M response :=
  fun w => (ocr_service w req, emit (Post req) w).

(** Lines 50-61: the request, from the local file when one is given,
    from the URL otherwise. *)
Definition send_request (image_url local_file_path api_key : option string)
           (language : string) : M response :=
  if truthy local_file_path then
    file <- open_rb (value local_file_path) ;;
    post (PostFile file (value api_key) language)
  else
    post (PostUrl (value image_url) (value api_key) language).

(** Lines 63-69: the three-way test on the status code.  The result says
    whether the function goes on to line 70 ([true]) or has returned
    [None] at line 69 ([false]). *)
Definition classify_status (r : response) : M bool :=
  if (status_code r =? 200)%Z then log (Classify SUCCESS) ;; ret true
  else if (status_code r =? 400)%Z then log (Classify BAD_REQUEST) ;; ret true
  else log (Classify SERVER_ERROR) ;; ret false.

(** Line 70. *)
Definition response_json (r : response) : M json :=
  log ReadJson ;; lift (json_body r).

(** Line 72: ['ParsedResults' not in result or not result['ParsedResults']],
    with the short circuit of [or]. *)
Definition invalid_structure (result : json) : M bool :=
  present <- lift (py_contains "ParsedResults" result) ;;
  if negb present then ret true
  else
    parsed <- lift (py_getitem_key result "ParsedResults") ;;
    ret (negb (py_bool parsed)).

(** Lines 70-76. *)
Definition parse_body (r : response) : M json :=
  result <- response_json r ;;
  invalid <- invalid_structure result ;;
  if invalid then
    log (PrintJson "Invalid response structure:" result) ;;
    ret JNull
  else
    parsed <- lift (py_getitem_key result "ParsedResults") ;;
    first <- lift (py_getitem_0 parsed) ;;
    text <- lift (py_getitem_key first "ParsedText") ;;
    ret text.

(** Lines 50-76: what the function does once its arguments have passed
    the two checks. *)
Definition request_and_parse
           (image_url local_file_path api_key : option string)
           (language : string) : M json :=
  r <- send_request image_url local_file_path api_key language ;;
  continue <- classify_status r ;;
  if negb continue then ret JNull
  else parse_body r.

(** Lines 44-76. [language] is the parameter defaulting to ['eng'];
    the result [JNull] is Python's [None]. *)
Definition upload_and_extract_content
           (image_url local_file_path api_key : option string)
           (language : string) : M json :=
  if negb (truthy api_key) then
    raise (Exc ValueError "API key is required")
  else if negb (truthy image_url) && negb (truthy local_file_path) then
    raise (Exc ValueError "Either image URL or local file path must be provided")
  else
    request_and_parse image_url local_file_path api_key language.

End OCRClient.

(* ===================================================================== *)
(** ** CaptureSource: [capture_image] (lines 79-100) *)
(* ===================================================================== *)

Module Capture.

(** [cap = cv2.VideoCapture(0)]: the device is held open when it is
    available. *)
Definition VideoCapture : M unit :=
  fun w => let d := camera w in
           (Ok tt, set_camera (Device (available d) (feed d) (available d) (releases d)) w).

(** [cap.isOpened()]. *)
Definition isOpened : M bool := fun w => (Ok (opened (camera w)), w).

(** [ret, frame = cap.read()]: [None] stands for [(False, None)]. *)
Definition read : M (option frame) :=
  fun w => let d := camera w in
           if opened d then
             match feed d with
             | f :: rest =>
                 (Ok (Some f), set_camera (Device (available d) rest true (releases d)) w)
             | [] => (Ok None, w)
             end
           else (Ok None, w).

(** [cap.release()]. *)
Definition release : M unit :=
  fun w => let d := camera w in
           (Ok tt, set_camera (Device (available d) (feed d) false (S (releases d))) w).

(** The end of the local [cap] when [capture_image] returns: the object
    is destroyed with the frame of the call, and the destructor of
    [cv2.VideoCapture] closes a device that is still held.  This is not a
    call of [release()]. *)
Definition del_cap : M unit :=
  fun w => let d := camera w in
           (Ok tt, set_camera (Device (available d) (feed d) false (releases d)) w).

(** Lines 89-100; both [return]s leave the function, and with it the
    local [cap]. *)
Definition capture_image : M (option frame) :=
  result <- try_except
              (VideoCapture ;;
               is_open <- isOpened ;;
               if negb is_open then raise (Exc RuntimeError "Could not open camera.")
               else
                 got <- read ;;
                 match got with
                 | None => raise (Exc RuntimeError "Could not read frame.")
                 | Some frame =>
                     release ;;
                     ret (Some frame)
                 end)
              (fun e =>
                 log (Print ("Error: " ++ exc_msg e)) ;;
                 ret None) ;;
  del_cap ;;
  ret result.

End Capture.

(* ===================================================================== *)
(** ** CredentialStore: the calls made on [user_collection] *)
(* ===================================================================== *)

Module Store.

(** The two filters the module queries with (lines 122 and 158). *)
Inductive query : Type :=
| ByUsername (u : string)
| ByCredentials (u p : string).

Definition matches (q : query) (d : document) : bool :=
  match q with
  | ByUsername u => username d =? u
  | ByCredentials u p => (username d =? u) && (password d =? p)
  end.

(** Every call on the collection first meets the next entry of
    [db_faults]: [Some e] makes the driver raise [e] and leaves the
    collection as it is; [None], or an exhausted list, lets the call
    through. *)
Definition db_call {A} (op : list document -> A * list document) : M A :=
  fun w =>
    match db_faults w with
    | Some e :: rest => (Raise e, set_db_faults rest w)
    | None :: rest =>
        let (a, us) := op (users w) in (Ok a, set_users us (set_db_faults rest w))
    | [] =>
        let (a, us) := op (users w) in (Ok a, set_users us w)
    end.

(** [user_collection.find_one(q)]: the first matching document. *)
Definition find_one (q : query) : M (option document) :=
  db_call (fun us => (find (matches q) us, us)).

(** [user_collection.insert_one(d)]. *)
Definition insert_one (d : document) : M unit :=
  db_call (fun us => (tt, us ++ [d])).

(** [{"$push": {"extracted_content": {"text": text}}}] applied to the
    first matching document; nothing changes when none matches. *)
Fixpoint push_first (q : query) (text : string) (us : list document) : list document :=
  match us with
  | [] => []
  | d :: rest =>
      if matches q d
      then Doc (username d) (password d) (extracted_content d ++ [text]) :: rest
      else d :: push_first q text rest
  end.

(** [user_collection.update_one(q, {"$push": ...})] (line 200). *)
Definition update_one_push (q : query) (text : string) : M unit :=
  db_call (fun us => (tt, push_first q text us)).

(** [user_collection.find()] (line 179). *)
Definition find_all : M (list document) :=
  db_call (fun us => (us, us)).

End Store.

(* ===================================================================== *)
(** ** AuthFlow: [create_user] and [login] (lines 103-163) *)
(* ===================================================================== *)

Module Auth.
Import Store.

(** [input(prompt)]: the next line the user types; [EOFError] when the
    input is exhausted. *)
Definition input (prompt : string) : M string :=
  fun w => match stdin w with
           | line :: rest => (Ok line, set_stdin rest (emit (Prompt prompt) w))
           | [] => (Raise (Exc EOFError "EOF when reading a line"), emit (Prompt prompt) w)
           end.

(** [getpass.getpass(prompt)]: the next line the user types, unechoed;
    at the end of the input it raises an [EOFError] without a message. *)
Definition getpass (prompt : string) : M string :=
  fun w => match stdin w with
           | line :: rest => (Ok line, set_stdin rest (emit (Prompt prompt) w))
           | [] => (Raise (Exc EOFError ""), emit (Prompt prompt) w)
           end.

(** [arg or fallback]: the fallback runs only when [arg] is falsy. *)
Definition py_or (arg : option string) (fallback : M string) : M string :=
  if truthy arg then ret (match arg with Some s => s | None => "" end)
  else fallback.

(** Lines 117-132. *)
Definition create_user (user_input password_input : option string)
  : M (string * string) :=
  try_except
    (username <- py_or user_input (input "Enter your username: ") ;;
     password <- py_or password_input (getpass "Enter your password: ") ;;
     existing <- find_one (ByUsername username) ;;
     match existing with
     | Some _ => raise (Exc RuntimeError "User already exists.")
     | None =>
         insert_one (Doc username password []) ;;
         log (Print "User created successfully.") ;;
         ret (username, password)
     end)
    (fun e =>
       log (Print ("Error: " ++ exc_msg e)) ;;
       raise (Exc RuntimeError "User already exists.")).

(** One turn of the [while True] loop of [login] (lines 152-163):
    [Some username] is the [return] of line 161, [None] falls off the end
    of the body and so begins the next turn.  Lines 152-153 assign
    [username] from [user_input or input_function] without calling
    anything, and line 154 assigns it again. *)
Definition login_turn (user_input password_input : option string)
  : M (option string) :=
  username <- py_or user_input (input "Enter your username: ") ;;
  password <- py_or password_input (getpass "Enter your password: ") ;;
  user_data <- find_one (ByCredentials username password) ;;
  match user_data with
  | Some _ =>
      log (Print "Login successful.") ;;
      ret (Some username)
  | None =>
      log (Print "Unauthorized. Please check your username and password.") ;;
      ret None
  end.

(** Lines 151-163.  [fuel] bounds the number of turns of the loop that
    are run; the answer [None] means that the loop is still running after
    [fuel] turns. *)
Fixpoint login (fuel : nat) (user_input password_input : option string) (w : world)
  : option (result string * world) :=
  match fuel with
  | O => None
  | S fuel' =>
      match login_turn user_input password_input w with
      | (Ok (Some username), w') => Some (Ok username, w')
      | (Ok None, w') => login fuel' user_input password_input w'
      | (Raise e, w') => Some (Raise e, w')
      end
  end.

End Auth.

(* ===================================================================== *)
(** ** The text operations of the pipeline: [str.replace], [re.findall] *)
(* ===================================================================== *)

Module Text.

(** Characters are the code points 0..255.  [s.replace(old, new)] for a
    one-character [old]. *)
Fixpoint str_replace (old : ascii) (new : string) (s : string) : string :=
  match s with
  | EmptyString => EmptyString
  | String c rest =>
      if Ascii.eqb c old then new ++ str_replace old new rest
      else String c (str_replace old new rest)
  end.

Definition between (lo hi : N) (c : ascii) : bool :=
  let n := N_of_ascii c in ((lo <=? n) && (n <=? hi))%N.

(** [[A-Za-z]]. *)
Definition is_letter (c : ascii) : bool := between 65 90 c || between 97 122 c.

(** [\d]: on code points below 256 the decimal digits are [0-9]. *)
Definition is_digit (c : ascii) : bool := between 48 57 c.

(** [\w] of a [str] pattern: alphanumerics and the underscore; below 256
    these are [0-9A-Za-z_] and the Latin-1 letters and numerals. *)
Definition is_word (c : ascii) : bool :=
  is_digit c || is_letter c || between 95 95 c
  || between 170 170 c || between 178 179 c || between 181 181 c
  || between 185 186 c || between 188 190 c
  || between 192 214 c || between 216 246 c || between 248 255 c.

(** The fragment of regular expressions the module uses. *)
Inductive regex : Type :=
| Boundary                         (* \b *)
| Plus (cls : ascii -> bool)       (* [cls]+, greedy *)
| Seq (r1 r2 : regex).

Definition word_before (prev : option ascii) : bool :=
  match prev with Some c => is_word c | None => false end.
Definition word_at (s : string) : bool :=
  match s with String c _ => is_word c | EmptyString => false end.

(** [[cls]+] by backtracking: take as many characters as possible, and
    give one back each time what follows fails to match.  [k] is what
    follows; it gets the last character taken and the rest. *)
Fixpoint match_plus (cls : ascii -> bool) (s : string)
         (k : ascii -> string -> option string) : option string :=
  match s with
  | EmptyString => None
  | String c rest =>
      if cls c then
        match match_plus cls rest k with
        | Some tl => Some tl
        | None => k c rest
        end
      else None
  end.

(** Matching [r] at the front of [s], where [prev] is the character just
    before [s]; the answer is what is left of [s] after the match. *)
Fixpoint rmatch (r : regex) (prev : option ascii) (s : string)
         (k : option ascii -> string -> option string) : option string :=
  match r with
  | Boundary => if xorb (word_before prev) (word_at s) then k prev s else None
  | Plus cls => match_plus cls s (fun c rest => k (Some c) rest)
  | Seq r1 r2 => rmatch r1 prev s (fun p rest => rmatch r2 p rest k)
  end.

(** The scan of [re.findall]: try a match at each position from left to
    right; after a match the search resumes where it ended.  [skip] counts
    the characters of the last match still to be stepped over. *)
Fixpoint findall_from (r : regex) (prev : option ascii) (s : string) (skip : nat)
  : list string :=
  match s with
  | EmptyString => []
  | String c rest =>
      match skip with
      | S n => findall_from r (Some c) rest n
      | O =>
          match rmatch r prev s (fun _ tl => Some tl) with
          | Some tl =>
              let n := (String.length s - String.length tl)%nat in
              substring 0 n s :: findall_from r (Some c) rest (n - 1)
          | None => findall_from r (Some c) rest 0
          end
      end
  end.

Definition findall (r : regex) (s : string) : list string :=
  findall_from r None s 0.

(** [r'\b[A-Za-z]+\b'] (line 202) and [r'\b\d+\b'] (line 203). *)
Definition word_pattern : regex := Seq Boundary (Seq (Plus is_letter) Boundary).
Definition integer_pattern : regex := Seq Boundary (Seq (Plus is_digit) Boundary).

End Text.

(* ===================================================================== *)
(** ** IngestionPipeline: the script part (lines 179-213) *)
(* ===================================================================== *)

Module Pipeline.
Import Store Text.

Definition newline : ascii := "010"%char.
Definition carriage_return : ascii := "013"%char.

(** Lines 197-210: what is done with the value returned by
    [upload_and_extract_content]. *)
Definition ingest (username : string) (extracted_content : json) : M unit :=
  match extracted_content with
  | JNull => log (Print "Failed to extract content.")
  | JStr text =>
      let cleaned_content :=
        str_replace carriage_return "" (str_replace newline "" text) in
      update_one_push (ByUsername username) cleaned_content ;;
      let words := findall word_pattern text in
      let integers := findall integer_pattern text in
      log (PrintJson "Extracted Content: " (JStr text)) ;;
      log (PrintList "Extracted Words:" words) ;;
      log (PrintList "Extracted Integers:" integers)
  | other =>
      raise (Exc AttributeError
               ("'" ++ type_name other ++ "' object has no attribute 'replace'"))
  end.

(** [cv2.imwrite(path, image)]. *)
Definition imwrite (path : string) (image : frame) : M unit :=
  fun w => (Ok tt, set_files ((path, image) :: files w) w).

(** Lines 179-213, for the [username] that [login] or [create_user] gave;
    [ocr_space_api_key] is the value read from the environment. *)
Definition pipeline (username : string) (ocr_space_api_key : option string) : M unit :=
  find_all ;;
  captured_image <- Capture.capture_image ;;
  match captured_image with
  | Some image =>
      log (ShowImage "Captured Image") ;;
      imwrite "captured_image.jpg" image ;;
      extracted_content <-
        OCRClient.upload_and_extract_content
          None (Some "captured_image.jpg") ocr_space_api_key "eng" ;;
      ingest username extracted_content
  | None => log (Print "Failed to capture an image.")
  end.

End Pipeline.


Import Store Auth Text.
Import OCRClient.

(* ===================================================================== *)
(** ** Concrete scenarios shared by the examples *)
(* ===================================================================== *)

Module Scenario.

Definition no_camera : device := Device false [] false 0.

(** The reply the tests mock: [{'ParsedResults': [{'ParsedText': text}]}]. *)
Definition parsed (text : string) : json :=
  JObj [("ParsedResults", JArr [JObj [("ParsedText", JStr text)]])].

(** An endpoint that answers every request with [code] and [body]. *)
Definition constant_service (code : Z) (body : json) : request -> result response :=
  fun _ => Ok (Response code (Ok body)).

(** A world with the given users and pending input, a healthy database
    and an endpoint answering [code] with [body]. *)
Definition world_of (us : list document) (typed : list string)
           (code : Z) (body : json) : world :=
  World us [] typed no_camera [("captured_image_test.jpg", "JPEG")]
        (constant_service code body) [].

Definition sample_url : string := "https://example.com/sample_image.jpg".
Definition sample_key : string := "xyz123".

(** The store after ["u1"] has registered with password ["p1"]. *)
Definition registered_u1 : world :=
  snd (create_user (Some "u1") (Some "p1") (world_of [] [] 200 JNull)).

(** The text ["Hello\r\nWorld"]. *)
Definition hello_world : string :=
  String "H" (String "e" (String "l" (String "l" (String "o"
    (String Pipeline.carriage_return (String Pipeline.newline "World")))))).

(** A camera that opens but delivers no frame. *)
Definition stalled_camera : device := Device true [] false 0.

(** A text with words, numbers and mixed tokens on two lines. *)
Definition sample_mixed : string :=
  String "H" (String "i" (String Pipeline.carriage_return (String Pipeline.newline
    "Yo 42 a1 x_y 7"))).

End Scenario.

(* ===================================================================== *)
(** ** The notions the specification speaks of *)
(* ===================================================================== *)

Module Spec.

(** Username uniqueness, the invariant of the store. *)
Definition unique_usernames (us : list document) : Prop :=
  NoDup (map username us).

(** A username is present in the store. *)
Definition present (u : string) (us : list document) : Prop :=
  exists d, In d us /\ username d = u.

(** The store is healthy: no database call is going to fail. *)
Definition healthy (w : world) : Prop := db_faults w = [].

Definition is_line_break (c : ascii) : bool :=
  Ascii.eqb c Pipeline.newline || Ascii.eqb c Pipeline.carriage_return.

(** The text with all newline and carriage-return characters removed. *)
Fixpoint without_line_breaks (s : string) : string :=
  match s with
  | EmptyString => EmptyString
  | String c rest =>
      if is_line_break c then without_line_breaks rest
      else String c (without_line_breaks rest)
  end.

Fixpoint all_chars (p : ascii -> bool) (s : string) : bool :=
  match s with
  | EmptyString => true
  | String c rest => p c && all_chars p rest
  end.

Definition close_token (current : string) : list string :=
  match current with
  | EmptyString => []
  | _ => [current]
  end.

(** The tokens of a text: its maximal runs of word characters, from left
    to right.  [current] is the run being read. *)
Fixpoint tokens_from (current : string) (s : string) : list string :=
  match s with
  | EmptyString => close_token current
  | String c rest =>
      if is_word c then tokens_from (current ++ String c EmptyString) rest
      else close_token current ++ tokens_from EmptyString rest
  end.

Definition tokens (s : string) : list string := tokens_from EmptyString s.

(** The whole tokens made of characters of one class only: the words for
    [[A-Za-z]], the integers for [\d]. *)
Definition whole_tokens (cls : ascii -> bool) (s : string) : list string :=
  filter (all_chars cls) (tokens s).

(** The longest prefix of [s] made of characters of [p], and the rest. *)
Fixpoint span (p : ascii -> bool) (s : string) : string * string :=
  match s with
  | EmptyString => (EmptyString, EmptyString)
  | String c rest =>
      if p c then (String c (fst (span p rest)), snd (span p rest))
      else (EmptyString, s)
  end.

(** The credentials [create_user] works with (lines 118-119): each
    explicit argument when it is non-empty, and otherwise the next line
    typed at the prompt, as it was typed; together with what is left of
    the input.  [None] when the input ends before both are known. *)
Definition credentials_read (user_input password_input : option string)
           (lines : list string) : option (string * string * list string) :=
  let given (o : option string) := match o with Some s => s | None => EmptyString end in
  match truthy user_input, truthy password_input, lines with
  | true, true, _ => Some (given user_input, given password_input, lines)
  | true, false, line :: rest => Some (given user_input, line, rest)
  | false, true, line :: rest => Some (line, given password_input, rest)
  | false, false, line1 :: line2 :: rest => Some (line1, line2, rest)
  | _, _, _ => None
  end.

(** AlreadyExists, as [create_user] raises it (lines 123 and 132). *)
Definition already_exists : exc := Exc RuntimeError "User already exists.".

(** An operation that leaves the usernames of the store as they are. *)
Definition keeps_names {A} (m : M A) : Prop :=
  forall w, map username (users (snd (m w))) = map username (users w).

End Spec.

Import Spec.

(* ===================================================================== *)
(** ** The script: the [__main__] block (lines 166-217) *)
(* ===================================================================== *)

Module Script.

(** [c.upper()] for one character, as code points: below 256 three
    characters have an upper case that is outside that range or made of
    two characters. *)
Definition upper_char (c : ascii) : list N :=
  let n := N_of_ascii c in
  if ((97 <=? n) && (n <=? 122))%N then [(n - 32)%N]
  else if (n =? 181)%N then [924%N]
  else if (n =? 223)%N then [83%N; 83%N]
  else if (((224 <=? n) && (n <=? 246)) || ((248 <=? n) && (n <=? 254)))%N
       then [(n - 32)%N]
  else if (n =? 255)%N then [376%N]
  else [n].

(** [s.upper()]. *)
Fixpoint upper (s : string) : list N :=
  match s with
  | EmptyString => []
  | String c rest => upper_char c ++ upper rest
  end.

(** [user_choice == 'L'], [user_choice == 'C']. *)
Fixpoint codes_eqb (a b : list N) : bool :=
  match a, b with
  | [], [] => true
  | x :: a', y :: b' => (x =? y)%N && codes_eqb a' b'
  | _, _ => false
  end.

Definition letter_L : list N := [76%N].
Definition letter_C : list N := [67%N].

(** How a run of the script ends: by falling off its end, by [exit()]
    (which raises [SystemExit], not an [Exception], so the handler of line
    215 lets it through), or by an exception nobody catches. *)
Inductive ending : Type :=
| Finished
| SystemExit
| Uncaught (e : exc).

(** Lines 215-217. *)
Definition on_error (e : exc) (w : world) : ending * world :=
  (SystemExit, emit (Print ("Error: " ++ exc_msg e)) w).

(** Lines 179-213 inside the [try] of line 170. *)
Definition run_pipeline (username : string) (ocr_space_api_key : option string)
           (w : world) : ending * world :=
  match Pipeline.pipeline username ocr_space_api_key w with
  | (Ok _, w') => (Finished, w')
  | (Raise e, w') => on_error e w'
  end.

(** Lines 166-217.  [fuel] bounds the turns of the loop of [login];
    [None] means that [login] is still running. *)
Definition main (fuel : nat) (ocr_space_api_key : option string) (w : world)
  : option (ending * world) :=
  match input "Do you want to (L)ogin or (C)reate a new account? " w with
  | (Raise e, w0) => Some (Uncaught e, w0)
  | (Ok line, w0) =>
      let user_choice := upper line in
      if codes_eqb user_choice letter_L then
        match login fuel None None w0 with
        | None => None
        | Some (Ok username, w1) => Some (run_pipeline username ocr_space_api_key w1)
        | Some (Raise e, w1) => Some (on_error e w1)
        end
      else if codes_eqb user_choice letter_C then
        match create_user None None w0 with
        | (Ok (username, _), w1) => Some (run_pipeline username ocr_space_api_key w1)
        | (Raise e, w1) => Some (on_error e w1)
        end
      else
        Some (SystemExit, emit (Print "Invalid choice. Exiting.") w0)
  end.

End Script.

(* ===================================================================== *)
(** ** Further notions used to state what the code keeps and never does *)
(* ===================================================================== *)

Module Notions.

(** Everything of the world but its trace. *)
Definition untraced (w : world)
  : list document * list (option exc) * list string * device
    * list (string * string) * (request -> result response) :=
  (users w, db_faults w, stdin w, camera w, files w, ocr_service w).

(** The world with more events on its trace and nothing else changed. *)
Definition with_events (evs : list event) (w : world) : world :=
  World (users w) (db_faults w) (stdin w) (camera w) (files w) (ocr_service w)
        (trace w ++ evs).

(** The credentials on record, in the order of the collection. *)
Definition credentials (us : list document) : list (string * string) :=
  map (fun d => (username d, password d)) us.

Definition is_post (e : event) : bool :=
  match e with Post _ => true | _ => false end.

(** The requests sent to the endpoint, in order. *)
Definition posts (evs : list event) : list event := filter is_post evs.

(** An operation under which [proj] of the world never changes. *)
Definition preserves {A T} (proj : world -> T) (m : M A) : Prop :=
  forall w, proj (snd (m w)) = proj w.

(** The typed lines of [n] attempts: a username, then a password, each
    time. *)
Fixpoint typed (attempts : list (string * string)) : list string :=
  match attempts with
  | [] => []
  | (u, p) :: rest => u :: p :: typed rest
  end.

Definition unauthorized : event :=
  Print "Unauthorized. Please check your username and password.".

(** What [n] failed interactive attempts leave on the trace. *)
Fixpoint failed_turns (n : nat) : list event :=
  match n with
  | O => []
  | S n' => Prompt "Enter your username: " :: Prompt "Enter your password: "
            :: unauthorized :: failed_turns n'
  end.

(** An operation that only adds events, at most [n] of them requests. *)
Definition talks {A} (n : nat) (m : M A) : Prop :=
  forall w, exists evs, snd (m w) = with_events evs w /\ length (posts evs) <= n.

(** The world after the user has typed up to [rest] and [evs] have
    happened, everything else as in [w]. *)
Definition after_typing (rest : list string) (evs : list event) (w : world) : world :=
  World (users w) (db_faults w) rest (camera w) (files w) (ocr_service w)
        (trace w ++ evs).

(** What a successful interactive turn of [login] adds to the trace. *)
Definition successful_turn : list event :=
  [Prompt "Enter your username: "; Prompt "Enter your password: ";
   Print "Login successful."].

(** The world of the pipeline once a frame [f] has been captured, shown
    and written to ["captured_image.jpg"] (lines 182-191). *)
Definition after_capture (f : frame) (w : world) : world :=
  World (users w) (db_faults w) (stdin w)
        (Device true (tl (feed (camera w))) false (S (releases (camera w))))
        (("captured_image.jpg", f) :: files w) (ocr_service w)
        (trace w ++ [ShowImage "Captured Image"]).

(** The code's cleaning of the extracted text (line 198). *)
Definition cleaned (text : string) : string :=
  str_replace Pipeline.carriage_return "" (str_replace Pipeline.newline "" text).

End Notions.

Import Notions.

(* ===================================================================== *)
(** ** Facts about the monad *)
(* ===================================================================== *)

Ltac unfold_monad :=
  unfold bind, ret, raise, lift, log, try_except in *.

Ltac unfold_world :=
  unfold set_users, set_db_faults, set_stdin, set_camera, set_files, emit in *.

(** Case analysis on the innermost test of the goal. *)
Ltac break_inner :=
  match goal with
  | |- context [match ?x with _ => _ end] =>
      lazymatch x with
      | context [match _ with _ => _ end] => fail
      | _ => destruct x eqn:?
      end
  end.

Ltac run_auth :=
  unfold create_user, login_turn, py_or, getpass, input, find_one, insert_one, db_call;
  unfold_monad; unfold_world.

Lemma trace_emit (e : event) (w : world) : trace (emit e w) = trace w ++ [e].
Proof. reflexivity. Qed.

Lemma users_emit (e : event) (w : world) : users (emit e w) = users w.
Proof. reflexivity. Qed.

(* ===================================================================== *)
(** ** OCRClient *)
(* ===================================================================== *)

Section OCRClientFacts.

Variables (image_url local_file_path api_key : option string).
Variable language : string.

(** Once the arguments are accepted, the call is [request_and_parse]. *)
Lemma upload_accepted (w : world) :
  truthy api_key = true ->
  truthy image_url || truthy local_file_path = true ->
  upload_and_extract_content image_url local_file_path api_key language w
  = request_and_parse image_url local_file_path api_key language w.
Proof.
  intros Hk Hs. unfold upload_and_extract_content.
  rewrite Hk. simpl.
  destruct (truthy image_url), (truthy local_file_path); simpl in *;
    try reflexivity; discriminate.
Qed.

(** [response.json()] is the first thing [parse_body] does. *)
Lemma parse_body_reads (r : response) (w : world) :
  exists evs, trace (snd (parse_body r w)) = trace w ++ ReadJson :: evs.
Proof.
  unfold parse_body, response_json, invalid_structure. unfold_monad.
  destruct (json_body r) as [body|e]; simpl.
  2:{ exists []. reflexivity. }
  destruct (py_contains "ParsedResults" body) as [[|]|e]; simpl.
  - destruct (py_getitem_key body "ParsedResults") as [v|e]; simpl.
    + destruct (py_bool v); simpl.
      * destruct (py_getitem_0 v) as [f|e]; simpl.
        -- destruct (py_getitem_key f "ParsedText"); simpl;
             exists []; reflexivity.
        -- exists []; reflexivity.
      * eexists. rewrite <- app_assoc. reflexivity.
    + exists []; reflexivity.
  - eexists. rewrite <- app_assoc. reflexivity.
  - exists []; reflexivity.
Qed.

(** The three ways on after a response has arrived (lines 63-70). *)
Lemma upload_after_response (w w1 : world) (r : response) :
  truthy api_key = true ->
  truthy image_url || truthy local_file_path = true ->
  send_request image_url local_file_path api_key language w = (Ok r, w1) ->
  upload_and_extract_content image_url local_file_path api_key language w
  = if (status_code r =? 200)%Z then parse_body r (emit (Classify SUCCESS) w1)
    else if (status_code r =? 400)%Z then parse_body r (emit (Classify BAD_REQUEST) w1)
    else (Ok JNull, emit (Classify SERVER_ERROR) w1).
Proof.
  intros Hk Hs Hsend. rewrite (upload_accepted w Hk Hs).
  unfold request_and_parse, classify_status. unfold_monad. rewrite Hsend.
  destruct (status_code r =? 200)%Z; [reflexivity|].
  destruct (status_code r =? 400)%Z; reflexivity.
Qed.

End OCRClientFacts.

(** C1, as stated, fails: status 201 is a 2xx status, yet the reply is
    classified [SERVER_ERROR], its body is never read, and the function
    returns [None], although the body holds a well-formed result. *)
Lemma C1_status_201_not_parsed :
  let w := Scenario.world_of [] [] 201 (Scenario.parsed "Test content") in
  let out := upload_and_extract_content
               (Some Scenario.sample_url) None (Some Scenario.sample_key) "eng" w in
  (200 <= 201 < 300)%Z /\
  fst out = Ok JNull /\
  trace (snd out)
  = [Post (PostUrl Scenario.sample_url Scenario.sample_key "eng"); Classify SERVER_ERROR] /\
  ~ In ReadJson (trace (snd out)) /\
  ~ In (Classify SUCCESS) (trace (snd out)).
Proof.
  vm_compute. repeat split; try discriminate.
  - intros [H|[H|[]]]; discriminate.
  - intros [H|[H|[]]]; discriminate.
Qed.

(** C1, amended: for every request that gets a response, status 200 is
    classified [SUCCESS] and status 400 [BAD_REQUEST], and in both cases the
    body is read as JSON and handed to the body validation; every other
    status, the other 2xx codes included, is classified [SERVER_ERROR] and
    the function returns [None] at once, the body unread. *)
Theorem C1_status_classification :
  forall image_url local_file_path api_key language w r w1,
    truthy api_key = true ->
    truthy image_url || truthy local_file_path = true ->
    send_request image_url local_file_path api_key language w = (Ok r, w1) ->
    let out := upload_and_extract_content image_url local_file_path api_key language w in
    (status_code r = 200%Z ->
       out = parse_body r (emit (Classify SUCCESS) w1) /\
       exists evs, trace (snd out) = trace w1 ++ Classify SUCCESS :: ReadJson :: evs) /\
    (status_code r = 400%Z ->
       out = parse_body r (emit (Classify BAD_REQUEST) w1) /\
       exists evs, trace (snd out) = trace w1 ++ Classify BAD_REQUEST :: ReadJson :: evs) /\
    (status_code r <> 200%Z -> status_code r <> 400%Z ->
       out = (Ok JNull, emit (Classify SERVER_ERROR) w1) /\
       trace (snd out) = trace w1 ++ [Classify SERVER_ERROR]).
Proof.
  intros image_url local_file_path api_key language w r w1 Hk Hs Hsend out.
  subst out. rewrite (upload_after_response _ _ _ _ _ _ _ Hk Hs Hsend).
  repeat split.
  - rewrite H. reflexivity.
  - rewrite H. simpl.
    destruct (parse_body_reads r (emit (Classify SUCCESS) w1)) as [evs Hevs].
    exists evs. rewrite Hevs, trace_emit, <- app_assoc. reflexivity.
  - rewrite H. reflexivity.
  - rewrite H. simpl.
    destruct (parse_body_reads r (emit (Classify BAD_REQUEST) w1)) as [evs Hevs].
    exists evs. rewrite Hevs, trace_emit, <- app_assoc. reflexivity.
  - apply Z.eqb_neq in H, H0. rewrite H, H0. reflexivity.
  - apply Z.eqb_neq in H, H0. rewrite H, H0. reflexivity.
Qed.

(** The amended C1 at status 403 with a URL source, as in
    [test_upload_and_extract_content_unexpected_status_code]. *)
Lemma C1_status_classification_witness :
  let w := Scenario.world_of [] [] 403 (JStr "Forbidden") in
  let req := PostUrl Scenario.sample_url Scenario.sample_key "eng" in
  let out := upload_and_extract_content
               (Some Scenario.sample_url) None (Some Scenario.sample_key) "eng" w in
  out = (Ok JNull, emit (Classify SERVER_ERROR) (emit (Post req) w)) /\
  trace (snd out) = trace (emit (Post req) w) ++ [Classify SERVER_ERROR].
Proof.
  intros w req out.
  apply (C1_status_classification
           (Some Scenario.sample_url) None (Some Scenario.sample_key) "eng" w
           (Response 403 (Ok (JStr "Forbidden"))) (emit (Post req) w));
    try reflexivity; simpl; discriminate.
Defined.

(** C2, as stated, fails: with a valid key and BOTH sources given, which is
    not "exactly one source", no [ValueError] is raised; the local file is
    uploaded and the text comes back. *)
Lemma C2_both_sources_accepted :
  let w := Scenario.world_of [] [] 200 (Scenario.parsed "Test content") in
  let out := upload_and_extract_content
               (Some Scenario.sample_url) (Some "captured_image_test.jpg")
               (Some Scenario.sample_key) "eng" w in
  fst out = Ok (JStr "Test content") /\
  fst out <> Raise (Exc ValueError "Either image URL or local file path must be provided") /\
  trace (snd out)
  = [Post (PostFile "JPEG" Scenario.sample_key "eng"); Classify SUCCESS; ReadJson].
Proof.
  vm_compute. repeat split. discriminate.
Qed.

(** C2, amended: an empty or absent [api_key] raises
    [ValueError("API key is required")] whatever the sources are and before
    anything else happens; with a key, the second [ValueError] is raised
    exactly when NEITHER source is given; with a key and at least one source
    no argument error is raised and the request goes out, and when both
    sources are given the call behaves as if only the file had been. *)
Theorem C2_argument_checks :
  forall image_url local_file_path api_key language w,
    (truthy api_key = false ->
       upload_and_extract_content image_url local_file_path api_key language w
       = (Raise (Exc ValueError "API key is required"), w)) /\
    (truthy api_key = true ->
       truthy image_url = false -> truthy local_file_path = false ->
       upload_and_extract_content image_url local_file_path api_key language w
       = (Raise (Exc ValueError "Either image URL or local file path must be provided"), w)) /\
    (truthy api_key = true ->
       truthy image_url || truthy local_file_path = true ->
       upload_and_extract_content image_url local_file_path api_key language w
       = request_and_parse image_url local_file_path api_key language w) /\
    (truthy api_key = true ->
       truthy local_file_path = true ->
       upload_and_extract_content image_url local_file_path api_key language w
       = upload_and_extract_content None local_file_path api_key language w).
Proof.
  intros image_url local_file_path api_key language w.
  repeat split.
  - intros Hk. unfold upload_and_extract_content. rewrite Hk. reflexivity.
  - intros Hk Hu Hf. unfold upload_and_extract_content.
    rewrite Hk, Hu, Hf. reflexivity.
  - intros Hk Hs. apply upload_accepted; assumption.
  - intros Hk Hf.
    rewrite !upload_accepted by (try assumption; rewrite Hf; apply orb_true_r).
    unfold request_and_parse, send_request. rewrite Hf. reflexivity.
Qed.

(** The amended C2 on the calls of [test_missing_api_key] and
    [test_upload_and_extract_content_no_image], and on a call with both
    sources. *)
Lemma C2_argument_checks_witness :
  let w := Scenario.world_of [] [] 200 (Scenario.parsed "Test content") in
  (upload_and_extract_content (Some "example.jpg") None None "eng" w
   = (Raise (Exc ValueError "API key is required"), w)) /\
  (upload_and_extract_content None None (Some Scenario.sample_key) "eng" w
   = (Raise (Exc ValueError "Either image URL or local file path must be provided"), w)) /\
  (upload_and_extract_content (Some Scenario.sample_url) (Some "captured_image_test.jpg")
                              (Some Scenario.sample_key) "eng" w
   = upload_and_extract_content None (Some "captured_image_test.jpg")
                                (Some Scenario.sample_key) "eng" w).
Proof.
  intros w. split; [|split].
  - exact (proj1 (C2_argument_checks (Some "example.jpg") None None "eng" w) eq_refl).
  - exact (proj1 (proj2 (C2_argument_checks None None (Some Scenario.sample_key) "eng" w))
                 eq_refl eq_refl eq_refl).
  - exact (proj2 (proj2 (proj2 (C2_argument_checks
                                  (Some Scenario.sample_url) (Some "captured_image_test.jpg")
                                  (Some Scenario.sample_key) "eng" w)))
                 eq_refl eq_refl).
Defined.

(** C3, as stated, fails: a body whose [ParsedResults] is the string
    ["none"] lacks a non-empty [ParsedResults] array, yet the function does
    not return [None]: it raises a [TypeError]; and a body whose
    [ParsedResults] is a non-empty array with a first result without
    [ParsedText] raises a [KeyError]. *)
Lemma C3_unvalidated_body_raises :
  let call body :=
    upload_and_extract_content (Some Scenario.sample_url) None
                               (Some Scenario.sample_key) "eng"
                               (Scenario.world_of [] [] 200 body) in
  (fst (call (JObj [("ParsedResults", JStr "none")]))
   = Raise (Exc TypeError "string indices must be integers, not 'str'") /\
   fst (call (JObj [("ParsedResults", JStr "none")])) <> Ok JNull) /\
  fst (call (JObj [("ParsedResults", JArr [JObj []])]))
  = Raise (Exc KeyError "'ParsedText'").
Proof.
  vm_compute. repeat split. discriminate.
Qed.

(** C3, amended: for every parsed body, read after a reply with status
    200 or 400.  An object without the key [ParsedResults], or whose
    [ParsedResults] is empty (the empty array, or any other falsy value),
    and an array or a string that does not contain ["ParsedResults"], are
    printed and give [None].  An object whose [ParsedResults] is a
    non-empty array with a first element that is an object with a
    [ParsedText] gives that value as it is.  Every other body makes the
    function raise a [TypeError] or a [KeyError]: a non-empty
    [ParsedResults] of any other shape, an array or a string containing
    ["ParsedResults"], and [null], booleans and numbers. *)
Theorem C3_body_validation :
  forall image_url local_file_path api_key language w r w1 body code,
    truthy api_key = true ->
    truthy image_url || truthy local_file_path = true ->
    send_request image_url local_file_path api_key language w = (Ok r, w1) ->
    (status_code r = 200%Z /\ code = SUCCESS \/
     status_code r = 400%Z /\ code = BAD_REQUEST) ->
    json_body r = Ok body ->
    let out := upload_and_extract_content image_url local_file_path api_key language w in
    let w2 := emit ReadJson (emit (Classify code) w1) in
    let absent := (Ok JNull, emit (PrintJson "Invalid response structure:" body) w2) in
    let raises :=
      exists e, out = (Raise e, w2) /\ (exc_cls e = TypeError \/ exc_cls e = KeyError) in
    (forall fields,
        body = JObj fields ->
        (dict_get "ParsedResults" fields = None \/
         (exists v, dict_get "ParsedResults" fields = Some v /\ py_bool v = false) ->
         out = absent) /\
        (forall item others text,
            dict_get "ParsedResults" fields = Some (JArr (JObj item :: others)) ->
            dict_get "ParsedText" item = Some text ->
            out = (Ok text, w2)) /\
        (forall v,
            dict_get "ParsedResults" fields = Some v ->
            py_bool v = true ->
            (forall item others,
                v = JArr (JObj item :: others) -> dict_get "ParsedText" item = None) ->
            raises)) /\
    (forall items,
        body = JArr items ->
        if existsb (fun x => match x with JStr s => s =? "ParsedResults" | _ => false end)
                   items
        then raises else out = absent) /\
    (forall s,
        body = JStr s ->
        if is_substring "ParsedResults" s then raises else out = absent) /\
    ((forall fields, body <> JObj fields) ->
     (forall items, body <> JArr items) ->
     (forall s, body <> JStr s) ->
     raises).
Proof.
  intros image_url local_file_path api_key language w r w1 body code
         Hk Hs Hsend Hstatus Hbody out w2 absent raises.
  assert (Hout : out = parse_body r (emit (Classify code) w1)).
  { subst out. rewrite (upload_after_response _ _ _ _ _ _ _ Hk Hs Hsend).
    destruct Hstatus as [[Hc ->]|[Hc ->]]; rewrite Hc; reflexivity. }
  subst raises absent. rewrite Hout. subst w2. clear Hout out.
  unfold parse_body, response_json, invalid_structure. unfold_monad.
  rewrite Hbody. cbn [fst snd].
  split; [|split; [|split]].
  - intros fields ->. cbn [py_contains py_getitem_key]. split; [|split].
    + intros [Habsent|(v & Hv & Hempty)].
      * rewrite Habsent. reflexivity.
      * rewrite Hv. cbn [negb]. rewrite Hempty. reflexivity.
    + intros item others text Hpr Htext.
      rewrite Hpr. cbn. rewrite Htext. reflexivity.
    + intros v Hv Htruthy Hshape. rewrite Hv. cbn [negb]. rewrite Htruthy. cbn [negb].
      destruct v as [| b | z | f | s | items | kv]; cbn in Htruthy |- *;
        try discriminate.
      * eexists; split; [reflexivity|left; reflexivity].
      * eexists; split; [reflexivity|left; reflexivity].
      * eexists; split; [reflexivity|left; reflexivity].
      * destruct s as [|c s]; [discriminate|].
        eexists; split; [reflexivity|left; reflexivity].
      * destruct items as [|x others]; [discriminate|].
        destruct x as [| b | z | f | s | l | item]; cbn;
          try (eexists; split; [reflexivity|left; reflexivity]).
        rewrite (Hshape item others eq_refl).
        eexists; split; [reflexivity|right; reflexivity].
      * eexists; split; [reflexivity|right; reflexivity].
  - intros items ->. cbn [py_contains].
    destruct (existsb _ items); cbn [negb py_getitem_key].
    + eexists; split; [reflexivity|left; reflexivity].
    + reflexivity.
  - intros s ->. cbn [py_contains].
    destruct (is_substring "ParsedResults" s); cbn [negb py_getitem_key].
    + eexists; split; [reflexivity|left; reflexivity].
    + reflexivity.
  - intros Hobj Harr Hstr.
    destruct body as [| b | z | f | s | items | kv];
      try (exfalso; first [exact (Hobj _ eq_refl)|exact (Harr _ eq_refl)
                          |exact (Hstr _ eq_refl)]);
      cbn [py_contains type_name]; eexists; split; try reflexivity; left; reflexivity.
Qed.

(** The amended C3 on the replies mocked by
    [test_upload_and_extract_content_invalid_response] and
    [test_upload_and_extract_content_with_url], on a reply whose
    [ParsedResults] is the empty array, and on a reply whose body is
    [null]. *)
Lemma C3_body_validation_witness :
  let req := PostUrl Scenario.sample_url Scenario.sample_key "eng" in
  let invalid := [("InvalidKey", JStr "InvalidValue")] in
  let empty := [("ParsedResults", JArr [])] in
  let w := Scenario.world_of [] [] 200 (JObj invalid) in
  let w' := Scenario.world_of [] [] 200 (Scenario.parsed "Test content") in
  let w'' := Scenario.world_of [] [] 200 (JObj empty) in
  let w0 := Scenario.world_of [] [] 200 JNull in
  upload_and_extract_content (Some Scenario.sample_url) None (Some Scenario.sample_key) "eng" w
  = (Ok JNull,
     emit (PrintJson "Invalid response structure:" (JObj invalid))
          (emit ReadJson (emit (Classify SUCCESS) (emit (Post req) w)))) /\
  upload_and_extract_content (Some Scenario.sample_url) None (Some Scenario.sample_key) "eng" w'
  = (Ok (JStr "Test content"),
     emit ReadJson (emit (Classify SUCCESS) (emit (Post req) w'))) /\
  upload_and_extract_content (Some Scenario.sample_url) None (Some Scenario.sample_key) "eng" w''
  = (Ok JNull,
     emit (PrintJson "Invalid response structure:" (JObj empty))
          (emit ReadJson (emit (Classify SUCCESS) (emit (Post req) w'')))) /\
  exists e,
    upload_and_extract_content (Some Scenario.sample_url) None (Some Scenario.sample_key)
                               "eng" w0
    = (Raise e, emit ReadJson (emit (Classify SUCCESS) (emit (Post req) w0))) /\
    (exc_cls e = TypeError \/ exc_cls e = KeyError).
Proof.
  intros req invalid empty w w' w'' w0.
  pose (at_body := fun body =>
          C3_body_validation
            (Some Scenario.sample_url) None (Some Scenario.sample_key) "eng"
            (Scenario.world_of [] [] 200 body)
            (Response 200 (Ok body)) (emit (Post req) (Scenario.world_of [] [] 200 body))
            body SUCCESS
            eq_refl eq_refl eq_refl (or_introl (conj eq_refl eq_refl)) eq_refl).
  split; [|split; [|split]].
  - exact (proj1 (proj1 (at_body (JObj invalid)) invalid eq_refl) (or_introl eq_refl)).
  - exact (proj1 (proj2 (proj1 (at_body (Scenario.parsed "Test content")) _ eq_refl))
                 [("ParsedText", JStr "Test content")] [] (JStr "Test content")
                 eq_refl eq_refl).
  - exact (proj1 (proj1 (at_body (JObj empty)) empty eq_refl)
                 (or_intror (ex_intro _ (JArr []) (conj eq_refl eq_refl)))).
  - apply (proj2 (proj2 (proj2 (at_body JNull)))); intros x; discriminate.
Defined.

(** Outside the schema of the endpoint nothing is validated: a
    [ParsedResults] that is a number is neither reported as invalid nor
    turned into [None]; indexing it raises a [TypeError]. *)
Example parsed_results_not_an_array :
  fst (upload_and_extract_content
         (Some Scenario.sample_url) None (Some Scenario.sample_key) "eng"
         (Scenario.world_of [] [] 200 (JObj [("ParsedResults", JInt 5)])))
  = Raise (Exc TypeError "'int' object is not subscriptable").
Proof. reflexivity. Qed.

(** A first result without [ParsedText] raises a [KeyError]. *)
Example parsed_text_missing :
  fst (upload_and_extract_content
         (Some Scenario.sample_url) None (Some Scenario.sample_key) "eng"
         (Scenario.world_of [] [] 200 (JObj [("ParsedResults", JArr [JObj []])])))
  = Raise (Exc KeyError "'ParsedText'").
Proof. reflexivity. Qed.

(* ===================================================================== *)
(** ** CredentialStore and AuthFlow *)
(* ===================================================================== *)

Lemma find_present (u : string) (us : list document) :
  present u us -> exists d, find (matches (ByUsername u)) us = Some d.
Proof.
  intros (d & Hin & Hu). induction us as [|x us IH]; [contradiction|].
  simpl. destruct (username x =? u) eqn:E.
  - exists x. reflexivity.
  - destruct Hin as [->|Hin].
    + rewrite Hu, String.eqb_refl in E. discriminate.
    + apply IH, Hin.
Qed.

Lemma find_absent (u : string) (us : list document) :
  (forall d, In d us -> username d <> u) ->
  find (matches (ByUsername u)) us = None.
Proof.
  intros H. induction us as [|x us IH]; [reflexivity|].
  simpl. destruct (String.eqb_spec (username x) u) as [E|E].
  - exfalso. apply (H x); [left; reflexivity|exact E].
  - apply IH. intros d Hd. apply H. right. exact Hd.
Qed.

Lemma find_none_not_in (u : string) (us : list document) :
  find (matches (ByUsername u)) us = None -> ~ In u (map username us).
Proof.
  induction us as [|x us IH]; simpl; intros Hf; [tauto|].
  destruct (String.eqb_spec (username x) u) as [E|E]; [discriminate|].
  intros [H|H]; [contradiction|]. exact (IH Hf H).
Qed.

Lemma unique_insert (u p : string) (us : list document) :
  unique_usernames us ->
  find (matches (ByUsername u)) us = None ->
  unique_usernames (us ++ [Doc u p []]).
Proof.
  unfold unique_usernames. intros Hnd Hf. rewrite map_app. simpl.
  apply NoDup_app; [exact Hnd|repeat constructor; simpl; tauto|].
  intros x Hx [<-|[]]. exact (find_none_not_in _ _ Hf Hx).
Qed.

Lemma usernames_push_first (q : query) (text : string) (us : list document) :
  map username (push_first q text us) = map username us.
Proof.
  induction us as [|d us IH]; [reflexivity|].
  simpl. destruct (matches q d); simpl; [reflexivity|]. rewrite IH. reflexivity.
Qed.

(** The two outcomes of [create_user]: the uniform failure, which leaves
    the collection alone, or the insertion of a document whose username was
    not found; explicit non-empty arguments are the ones used. *)
Lemma create_user_cases (user_input password_input : option string) (w : world) :
  (fst (create_user user_input password_input w) = Raise already_exists /\
   users (snd (create_user user_input password_input w)) = users w) \/
  (exists u p,
      fst (create_user user_input password_input w) = Ok (u, p) /\
      users (snd (create_user user_input password_input w)) = users w ++ [Doc u p []] /\
      find (matches (ByUsername u)) (users w) = None /\
      (truthy user_input = true -> user_input = Some u) /\
      (truthy password_input = true -> password_input = Some p)).
Proof.
  run_auth.
  repeat (break_inner; simpl in *; try discriminate);
    try (left; split; reflexivity).
  all: right; eexists; eexists; repeat split;
    try eassumption; try reflexivity; intros; discriminate.
Qed.

Lemma find_after_insert (u p : string) (us : list document) :
  find (matches (ByUsername u)) us = None ->
  find (matches (ByUsername u)) (us ++ [Doc u p []]) = Some (Doc u p []).
Proof.
  induction us as [|x us IH]; simpl; intros Hf.
  - rewrite String.eqb_refl. reflexivity.
  - destruct (username x =? u); [discriminate|]. apply IH, Hf.
Qed.

Lemma truthy_some (s : string) : s <> "" -> truthy (Some s) = true.
Proof.
  intros H. simpl. destruct (String.eqb_spec s ""); [contradiction|reflexivity].
Qed.

(** [create_user] with explicit credentials on a healthy store. *)
Lemma create_user_fresh (u p : string) (w : world) :
  u <> "" -> p <> "" -> healthy w ->
  find (matches (ByUsername u)) (users w) = None ->
  create_user (Some u) (Some p) w
  = (Ok (u, p),
     emit (Print "User created successfully.") (set_users (users w ++ [Doc u p []]) w)).
Proof.
  intros Hu Hp Hh Hf. unfold healthy in Hh.
  unfold create_user, py_or. rewrite (truthy_some u Hu), (truthy_some p Hp).
  unfold find_one, insert_one, db_call. unfold_monad. rewrite Hh, Hf. simpl.
  rewrite Hh. reflexivity.
Qed.

(** C5: for every non-empty username and password, the username not yet
    in a healthy store, [create_user] succeeds with that pair, and the
    [find_one] by username that follows yields a document with exactly that
    username and that password. *)
Theorem C5_create_then_find :
  forall u p w,
    u <> "" -> p <> "" ->
    (forall d, In d (users w) -> username d <> u) ->
    healthy w ->
    exists w',
      create_user (Some u) (Some p) w = (Ok (u, p), w') /\
      exists d,
        find_one (ByUsername u) w' = (Ok (Some d), w') /\
        username d = u /\ password d = p.
Proof.
  intros u p w Hu Hp Habsent Hh.
  pose proof (find_absent u (users w) Habsent) as Hf.
  eexists. split; [apply create_user_fresh; assumption|].
  exists (Doc u p []). split; [|split; reflexivity].
  unfold find_one, db_call. unfold healthy in Hh. simpl. rewrite Hh.
  unfold set_users. simpl. rewrite (find_after_insert u p _ Hf).
  unfold emit. simpl. reflexivity.
Qed.

(** C5 on the user of [test_create_user_and_verify_in_database]. *)
Lemma C5_create_then_find_witness :
  exists w',
    create_user (Some "test_user_db") (Some "test_password_db")
                (Scenario.world_of [] [] 200 JNull)
    = (Ok ("test_user_db", "test_password_db"), w') /\
    exists d,
      find_one (ByUsername "test_user_db") w' = (Ok (Some d), w') /\
      username d = "test_user_db" /\ password d = "test_password_db".
Proof.
  apply (C5_create_then_find "test_user_db" "test_password_db"
                             (Scenario.world_of [] [] 200 JNull)).
  - discriminate.
  - discriminate.
  - intros d [].
  - reflexivity.
Defined.

(** One turn of [login] with explicit credentials on a healthy store
    comes down to the query. *)
Lemma login_turn_explicit (u p : string) (w : world) :
  u <> "" -> p <> "" -> healthy w ->
  login_turn (Some u) (Some p) w
  = match find (matches (ByCredentials u p)) (users w) with
    | Some _ => (Ok (Some u), emit (Print "Login successful.") w)
    | None =>
        (Ok None,
         emit (Print "Unauthorized. Please check your username and password.") w)
    end.
Proof.
  intros Hu Hp Hh. unfold healthy in Hh.
  unfold login_turn, py_or. rewrite (truthy_some u Hu), (truthy_some p Hp).
  unfold find_one, db_call. unfold_monad. rewrite Hh.
  destruct w as [us fs inp cam fl svc tr]. simpl in *. subst fs.
  destruct (find (matches (ByCredentials u p)) us); reflexivity.
Qed.

(** With matching credentials the first turn returns the username. *)
Lemma login_right_password (fuel : nat) (u p : string) (w : world) (d : document) :
  u <> "" -> p <> "" -> healthy w ->
  find (matches (ByCredentials u p)) (users w) = Some d ->
  login (S fuel) (Some u) (Some p) w = Some (Ok u, emit (Print "Login successful.") w).
Proof.
  intros Hu Hp Hh Hf. simpl.
  rewrite (login_turn_explicit u p w Hu Hp Hh), Hf. reflexivity.
Qed.

(** With explicit credentials that match no document, no number of turns
    ends the loop: every turn finds the same arguments and the same
    collection. *)
Lemma login_wrong_password (fuel : nat) (u p : string) :
  u <> "" -> p <> "" ->
  forall w, healthy w ->
    find (matches (ByCredentials u p)) (users w) = None ->
    login fuel (Some u) (Some p) w = None.
Proof.
  intros Hu Hp. induction fuel as [|fuel IH]; intros w Hh Hf; [reflexivity|].
  simpl. rewrite (login_turn_explicit u p w Hu Hp Hh), Hf.
  apply IH; [exact Hh|exact Hf].
Qed.

(** C6, the code at the failing input: ["u1"/"p1"] is accepted by
    [create_user] and [login] with that pair returns ["u1"] on its first
    turn, but [login("u1", "wrong")] neither returns nor raises: whatever
    the number of turns granted, the loop is still running. *)
Theorem C6_login_wrong_password_never_returns :
  fst (create_user (Some "u1") (Some "p1") (Scenario.world_of [] [] 200 JNull))
  = Ok ("u1", "p1") /\
  login 1 (Some "u1") (Some "p1") Scenario.registered_u1
  = Some (Ok "u1", emit (Print "Login successful.") Scenario.registered_u1) /\
  forall fuel, login fuel (Some "u1") (Some "wrong") Scenario.registered_u1 = None.
Proof.
  split; [reflexivity|]. split; [reflexivity|].
  intros fuel. apply login_wrong_password; try discriminate; reflexivity.
Qed.

(** The turns of the loop at the failing input are the same over and
    over: after [n] turns there are [n] "Unauthorized" lines on the output
    and nothing else has changed. *)
Example login_wrong_password_three_turns :
  login 3 (Some "u1") (Some "wrong") Scenario.registered_u1 = None /\
  (let unauthorized := Print "Unauthorized. Please check your username and password." in
   snd (login_turn (Some "u1") (Some "wrong")
          (snd (login_turn (Some "u1") (Some "wrong") Scenario.registered_u1)))
   = emit unauthorized (emit unauthorized Scenario.registered_u1)).
Proof. split; reflexivity. Qed.

(** C9, as stated, fails: [create_user("", "pw")] raises nothing; it
    prompts for the username, reads ["mallory"] from the input, and creates
    that identity. *)
Lemma C9_empty_username_falls_back_to_prompt :
  let w := Scenario.world_of [] ["mallory"] 200 JNull in
  let out := create_user (Some "") (Some "pw") w in
  fst out = Ok ("mallory", "pw") /\
  users (snd out) = [Doc "mallory" "pw" []] /\
  trace (snd out) = [Prompt "Enter your username: "; Print "User created successfully."] /\
  stdin (snd out) = [].
Proof. vm_compute. repeat split. Qed.

(** C9, amended: [create_user] does not reject empty credentials.  An
    empty or absent username, or password, is replaced by the next line
    read at the prompt, used exactly as typed, an empty line included; with
    the credentials so obtained the identity is created when the username
    is free, and the call fails with "User already exists." when it is
    taken.  When the line read is not empty the call goes on exactly as if
    that line had been the argument.  Every failure of [create_user] is the
    [RuntimeError] "User already exists.", never an InvalidArgument. *)
Theorem C9_empty_credentials_are_prompted :
  forall user_input password_input w,
    (forall u p rest,
        healthy w ->
        credentials_read user_input password_input (stdin w) = Some (u, p, rest) ->
        let out := create_user user_input password_input w in
        stdin (snd out) = rest /\
        match find (matches (ByUsername u)) (users w) with
        | None => fst out = Ok (u, p) /\ users (snd out) = users w ++ [Doc u p []]
        | Some _ => fst out = Raise already_exists /\ users (snd out) = users w
        end) /\
    (forall line rest,
        truthy user_input = false -> stdin w = line :: rest -> line <> "" ->
        create_user user_input password_input w
        = create_user (Some line) password_input
                      (set_stdin rest (emit (Prompt "Enter your username: ") w))) /\
    (forall u line rest,
        user_input = Some u -> u <> "" ->
        truthy password_input = false -> stdin w = line :: rest -> line <> "" ->
        create_user user_input password_input w
        = create_user (Some u) (Some line)
                      (set_stdin rest (emit (Prompt "Enter your password: ") w))) /\
    (forall e, fst (create_user user_input password_input w) = Raise e ->
               e = Exc RuntimeError "User already exists.").
Proof.
  intros user_input password_input w. split; [|split; [|split]].
  - intros u p rest Hh Hread out. subst out. unfold healthy in Hh.
    unfold credentials_read in Hread. run_auth.
    destruct (truthy user_input) eqn:Hu, (truthy password_input) eqn:Hp.
    + injection Hread as <- <- <-. cbn [db_faults users stdin]. rewrite Hh.
      destruct (find _ (users w)); cbn [fst snd users stdin db_faults];
        rewrite ?Hh; cbn [fst snd users stdin]; repeat split.
    + destruct (stdin w) as [|line lines] eqn:Hin; [discriminate|].
      injection Hread as <- <- <-. cbn [db_faults users stdin]. rewrite Hh.
      destruct (find _ (users w)); cbn [fst snd users stdin db_faults];
        rewrite ?Hh; cbn [fst snd users stdin]; repeat split.
    + destruct (stdin w) as [|line lines] eqn:Hin; [discriminate|].
      injection Hread as <- <- <-. cbn [db_faults users stdin]. rewrite Hh.
      destruct (find _ (users w)); cbn [fst snd users stdin db_faults];
        rewrite ?Hh; cbn [fst snd users stdin]; repeat split.
    + destruct (stdin w) as [|line1 [|line2 lines]] eqn:Hin; try discriminate.
      injection Hread as <- <- <-. cbn [db_faults users stdin]. rewrite Hh.
      destruct (find _ (users w)); cbn [fst snd users stdin db_faults];
        rewrite ?Hh; cbn [fst snd users stdin]; repeat split.
  - intros line rest Hfalsy Hin Hline.
    unfold create_user, py_or at 1 3. rewrite Hfalsy, (truthy_some line Hline).
    unfold input at 1. unfold try_except, bind. rewrite Hin. reflexivity.
  - intros u line rest -> Hu Hfalsy Hin Hline.
    unfold create_user, py_or. rewrite Hfalsy, (truthy_some u Hu), (truthy_some line Hline).
    unfold getpass. unfold try_except, bind, ret. rewrite Hin. reflexivity.
  - intros e He.
    destruct (create_user_cases user_input password_input w)
      as [[Hfail _]|(u & p & Hok & _)].
    + rewrite Hfail in He. injection He as <-. reflexivity.
    + rewrite Hok in He. discriminate.
Qed.

(** The amended C9 on [create_user("", "pw")] when an empty line is
    typed: the identity with the empty username is created; and on
    [create_user("", "pw")] and [create_user("bob", "")] with a non-empty
    line pending. *)
Lemma C9_empty_credentials_are_prompted_witness :
  (let w := Scenario.world_of [] [""; "left"] 200 JNull in
   let out := create_user (Some "") (Some "pw") w in
   stdin (snd out) = ["left"] /\
   (fst out = Ok ("", "pw") /\ users (snd out) = users w ++ [Doc "" "pw" []])) /\
  create_user (Some "") (Some "pw") (Scenario.world_of [] ["mallory"] 200 JNull)
  = create_user (Some "mallory") (Some "pw")
                (set_stdin [] (emit (Prompt "Enter your username: ")
                                    (Scenario.world_of [] ["mallory"] 200 JNull))) /\
  create_user (Some "bob") (Some "") (Scenario.world_of [] ["secret"] 200 JNull)
  = create_user (Some "bob") (Some "secret")
                (set_stdin [] (emit (Prompt "Enter your password: ")
                                    (Scenario.world_of [] ["secret"] 200 JNull))).
Proof.
  split; [|split].
  - exact (proj1 (C9_empty_credentials_are_prompted
                    (Some "") (Some "pw") (Scenario.world_of [] [""; "left"] 200 JNull))
                 "" "pw" ["left"] eq_refl eq_refl).
  - apply (proj1 (proj2 (C9_empty_credentials_are_prompted
                    (Some "") (Some "pw") (Scenario.world_of [] ["mallory"] 200 JNull)))
                 "mallory" []); [reflexivity|reflexivity|discriminate].
  - apply (proj1 (proj2 (proj2 (C9_empty_credentials_are_prompted
                    (Some "bob") (Some "") (Scenario.world_of [] ["secret"] 200 JNull))))
                 "bob" "secret" []);
      [reflexivity|discriminate|reflexivity|reflexivity|discriminate].
Defined.

(** C10: [create_user] either returns the pair or raises
    [RuntimeError("User already exists.")], never anything else.  In
    particular an error [e] raised by [insert_one] for a username that is not
    in the store is printed and replaced by that [RuntimeError]: neither the
    class nor the message of [e] reaches the caller, and nothing is
    inserted. *)
Theorem C10_every_failure_is_already_exists :
  forall user_input password_input w,
    ((exists u p, fst (create_user user_input password_input w) = Ok (u, p)) \/
     fst (create_user user_input password_input w) = Raise already_exists) /\
    (forall e, fst (create_user user_input password_input w) = Raise e ->
               e = Exc RuntimeError "User already exists.") /\
    (forall u p e rest,
        user_input = Some u -> password_input = Some p ->
        u <> "" -> p <> "" ->
        find (matches (ByUsername u)) (users w) = None ->
        db_faults w = None :: Some e :: rest ->
        create_user user_input password_input w
        = (Raise (Exc RuntimeError "User already exists."),
           emit (Print ("Error: " ++ exc_msg e)) (set_db_faults rest w))).
Proof.
  intros user_input password_input w.
  destruct (create_user_cases user_input password_input w)
    as [[Hfail _]|(u & p & Hok & _)].
  - split; [right; exact Hfail|]. split.
    + intros e He. rewrite Hfail in He. injection He as <-. reflexivity.
    + intros u p e rest -> -> Hu Hp Hf Hfaults.
      unfold create_user, py_or. rewrite (truthy_some u Hu), (truthy_some p Hp).
      unfold find_one, insert_one, db_call. unfold_monad.
      rewrite Hfaults, Hf. simpl. reflexivity.
  - split; [left; exists u, p; exact Hok|]. split.
    + intros e He. rewrite Hok in He. discriminate.
    + intros u' p' e rest -> -> Hu Hp Hf Hfaults. exfalso.
      revert Hok. unfold create_user, py_or.
      rewrite (truthy_some u' Hu), (truthy_some p' Hp).
      unfold find_one, insert_one, db_call. unfold_monad.
      rewrite Hfaults, Hf. simpl. discriminate.
Qed.

(** C10 when the driver fails inside [insert_one] while ["alice"] is being
    created. *)
Lemma C10_every_failure_is_already_exists_witness :
  let e := Exc PyMongoError "connection closed" in
  let w := World [] [None; Some e] [] Scenario.no_camera []
                 (Scenario.constant_service 200 JNull) [] in
  create_user (Some "alice") (Some "secret") w
  = (Raise (Exc RuntimeError "User already exists."),
     emit (Print "Error: connection closed") (set_db_faults [] w)).
Proof.
  intros e w.
  apply (proj2 (proj2 (C10_every_failure_is_already_exists
                         (Some "alice") (Some "secret") w))
               "alice" "secret" e []);
    try reflexivity; discriminate.
Defined.

(* --------------------------------------------------------------------- *)
(** *** Operations that leave the usernames of the store as they are *)
(* --------------------------------------------------------------------- *)

Create HintDb keeps.

Lemma keeps_ret {A} (a : A) : keeps_names (ret a).
Proof. intros w. reflexivity. Qed.

Lemma keeps_raise {A} (e : exc) : keeps_names (@raise A e).
Proof. intros w. reflexivity. Qed.

Lemma keeps_lift {A} (r : result A) : keeps_names (lift r).
Proof. intros w. reflexivity. Qed.

Lemma keeps_log (e : event) : keeps_names (log e).
Proof. intros w. reflexivity. Qed.

Lemma keeps_bind {A B} (m : M A) (k : A -> M B) :
  keeps_names m -> (forall a, keeps_names (k a)) -> keeps_names (bind m k).
Proof.
  intros Hm Hk w. unfold bind. specialize (Hm w).
  destruct (m w) as [[a|e] w']; simpl in *; [rewrite Hk|]; exact Hm.
Qed.

Lemma keeps_try {A} (body : M A) (handler : exc -> M A) :
  keeps_names body -> (forall e, keeps_names (handler e)) ->
  keeps_names (try_except body handler).
Proof.
  intros Hb Hh w. unfold try_except. specialize (Hb w).
  destruct (body w) as [[a|e] w']; simpl in *; [|rewrite Hh]; exact Hb.
Qed.

Lemma keeps_db_call {A} (op : list document -> A * list document) :
  (forall us, map username (snd (op us)) = map username us) ->
  keeps_names (db_call op).
Proof.
  intros Hop w. unfold db_call. specialize (Hop (users w)).
  destruct (db_faults w) as [|[e|] rest]; simpl; try reflexivity;
    destruct (op (users w)); exact Hop.
Qed.

Lemma keeps_find_one (q : query) : keeps_names (find_one q).
Proof. apply keeps_db_call. reflexivity. Qed.

Lemma keeps_find_all : keeps_names find_all.
Proof. apply keeps_db_call. reflexivity. Qed.

Lemma keeps_update_one_push (q : query) (text : string) :
  keeps_names (update_one_push q text).
Proof. apply keeps_db_call. intros us. apply usernames_push_first. Qed.

Lemma keeps_input (prompt : string) : keeps_names (input prompt).
Proof. intros w. unfold input. destruct (stdin w); reflexivity. Qed.

Lemma keeps_open_rb (path : string) : keeps_names (open_rb path).
Proof. intros w. unfold open_rb. destruct (lookup_file path (files w)); reflexivity. Qed.

Lemma keeps_post (req : request) : keeps_names (post req).
Proof. intros w. reflexivity. Qed.

Lemma keeps_imwrite (path : string) (image : frame) :
  keeps_names (Pipeline.imwrite path image).
Proof. intros w. reflexivity. Qed.

Lemma keeps_VideoCapture : keeps_names Capture.VideoCapture.
Proof. intros w. reflexivity. Qed.

Lemma keeps_isOpened : keeps_names Capture.isOpened.
Proof. intros w. reflexivity. Qed.

Lemma keeps_del_cap : keeps_names Capture.del_cap.
Proof. intros w. reflexivity. Qed.

Lemma keeps_read : keeps_names Capture.read.
Proof.
  intros w. unfold Capture.read.
  destruct (opened (camera w)); [destruct (feed (camera w))|]; reflexivity.
Qed.

Lemma keeps_release : keeps_names Capture.release.
Proof. intros w. reflexivity. Qed.

#[local] Hint Resolve keeps_ret keeps_raise keeps_lift keeps_log keeps_find_one
  keeps_find_all keeps_update_one_push keeps_input keeps_open_rb keeps_post
  keeps_imwrite keeps_VideoCapture keeps_isOpened keeps_read keeps_release
  keeps_del_cap : keeps.

(** Going through a composed operation: sequencing, handlers, tests. *)
Ltac keeps :=
  repeat first
    [ solve [auto with keeps]
    | apply keeps_bind; [|intros]
    | apply keeps_try; [|intros]
    | match goal with
      | |- keeps_names (if ?b then _ else _) => destruct b
      | |- keeps_names (match ?x with _ => _ end) => destruct x
      end ].

Lemma keeps_py_or (arg : option string) (prompt : string) :
  keeps_names (py_or arg (input prompt)).
Proof. unfold py_or. keeps. Qed.

Lemma keeps_getpass (prompt : string) : keeps_names (getpass prompt).
Proof. intros w. unfold getpass. destruct (stdin w); reflexivity. Qed.

Lemma keeps_py_or_getpass (arg : option string) (prompt : string) :
  keeps_names (py_or arg (getpass prompt)).
Proof. unfold py_or. keeps. apply keeps_getpass. Qed.

Lemma keeps_login_turn (user_input password_input : option string) :
  keeps_names (login_turn user_input password_input).
Proof.
  unfold login_turn. keeps; first [apply keeps_py_or|apply keeps_py_or_getpass].
Qed.

Lemma keeps_capture_image : keeps_names Capture.capture_image.
Proof. unfold Capture.capture_image. keeps. Qed.

Lemma keeps_upload (image_url local_file_path api_key : option string) (language : string) :
  keeps_names (upload_and_extract_content image_url local_file_path api_key language).
Proof.
  unfold upload_and_extract_content, request_and_parse, send_request,
    classify_status, parse_body, response_json, invalid_structure.
  keeps.
Qed.

Lemma keeps_ingest (u : string) (content : json) : keeps_names (Pipeline.ingest u content).
Proof. unfold Pipeline.ingest. keeps. Qed.

Lemma keeps_pipeline (u : string) (key : option string) :
  keeps_names (Pipeline.pipeline u key).
Proof.
  unfold Pipeline.pipeline. keeps;
    auto using keeps_capture_image, keeps_upload, keeps_ingest.
Qed.

(** [login] never touches the collection, however many turns it runs. *)
Lemma login_keeps_users (fuel : nat) (user_input password_input : option string) :
  forall w out w',
    login fuel user_input password_input w = Some (out, w') ->
    map username (users w') = map username (users w).
Proof.
  induction fuel as [|fuel IH]; intros w out w' H; [discriminate|].
  simpl in H. pose proof (keeps_login_turn user_input password_input w) as Hk.
  destruct (login_turn user_input password_input w) as [[[u|]|e] w1]; simpl in Hk.
  - injection H as _ <-. exact Hk.
  - rewrite (IH _ _ _ H). exact Hk.
  - injection H as _ <-. exact Hk.
Qed.

(** C4: for every non-empty username present in the store and any
    password argument, [create_user] fails with
    [RuntimeError("User already exists.")] and the collection, hence the
    stored password, is as before; and username uniqueness is preserved by
    every operation: [create_user], [login], the append of [ingest], and the
    whole pipeline. *)
Theorem C4_duplicate_create_is_rejected :
  forall w,
    (forall u password_input,
        u <> "" -> present u (users w) ->
        fst (create_user (Some u) password_input w) = Raise already_exists /\
        users (snd (create_user (Some u) password_input w)) = users w) /\
    (unique_usernames (users w) ->
       (forall user_input password_input,
           unique_usernames (users (snd (create_user user_input password_input w)))) /\
       (forall fuel user_input password_input out w',
           login fuel user_input password_input w = Some (out, w') ->
           unique_usernames (users w')) /\
       (forall u content, unique_usernames (users (snd (Pipeline.ingest u content w)))) /\
       (forall u key, unique_usernames (users (snd (Pipeline.pipeline u key w))))).
Proof.
  intros w. split.
  - intros u password_input Hu Hpresent.
    destruct (create_user_cases (Some u) password_input w)
      as [Hfail|(u' & p & _ & _ & Hf & Harg & _)]; [exact Hfail|].
    exfalso. specialize (Harg (truthy_some u Hu)). injection Harg as <-.
    destruct (find_present u (users w) Hpresent) as [d Hd]. congruence.
  - intros Huniq. unfold unique_usernames in *. repeat split.
    + intros user_input password_input.
      destruct (create_user_cases user_input password_input w)
        as [[_ Hsame]|(u & p & _ & Hnew & Hf & _)].
      * rewrite Hsame. exact Huniq.
      * rewrite Hnew. apply unique_insert; assumption.
    + intros fuel user_input password_input out w' Hlogin.
      rewrite (login_keeps_users _ _ _ _ _ _ Hlogin). exact Huniq.
    + intros u content. rewrite keeps_ingest. exact Huniq.
    + intros u key. rewrite keeps_pipeline. exact Huniq.
Qed.

(** C4 on the second call of [test_create_user_duplicate]. *)
Lemma C4_duplicate_create_is_rejected_witness :
  let w := Scenario.world_of [Doc "existing_user_db" "existing_password_db" []] [] 200 JNull in
  (fst (create_user (Some "existing_user_db") (Some "new_password") w)
   = Raise already_exists /\
   users (snd (create_user (Some "existing_user_db") (Some "new_password") w)) = users w) /\
  unique_usernames (users (snd (create_user (Some "someone_else") (Some "pw") w))).
Proof.
  intros w. split.
  - apply (proj1 (C4_duplicate_create_is_rejected w)
                 "existing_user_db" (Some "new_password")).
    + discriminate.
    + exists (Doc "existing_user_db" "existing_password_db" []).
      split; [left; reflexivity|reflexivity].
  - apply (proj2 (C4_duplicate_create_is_rejected w)).
    repeat constructor; simpl; tauto.
Defined.

(* ===================================================================== *)
(** ** The text operations *)
(* ===================================================================== *)

Lemma replace_removes_line_breaks (s : string) :
  str_replace Pipeline.carriage_return "" (str_replace Pipeline.newline "" s)
  = without_line_breaks s.
Proof.
  induction s as [|c s IH]; [reflexivity|].
  simpl. unfold is_line_break.
  destruct (Ascii.eqb_spec c Pipeline.newline) as [->|Hn]; simpl.
  - exact IH.
  - destruct (Ascii.eqb c Pipeline.carriage_return); simpl; rewrite IH; reflexivity.
Qed.

Lemma append_empty_r (s : string) : (s ++ "")%string = s.
Proof. induction s as [|c s IH]; simpl; [|rewrite IH]; reflexivity. Qed.

Lemma append_assoc (a b c : string) : ((a ++ b) ++ c = a ++ (b ++ c))%string.
Proof. induction a as [|x a IH]; simpl; [|rewrite IH]; reflexivity. Qed.

Lemma span_length (p : ascii -> bool) (s : string) :
  String.length s = String.length (fst (span p s)) + String.length (snd (span p s)).
Proof.
  induction s as [|c s IH]; [reflexivity|].
  simpl. destruct (p c); simpl; [rewrite IH|]; reflexivity.
Qed.

Lemma span_substring (p : ascii -> bool) (s : string) :
  substring 0 (String.length (fst (span p s))) s = fst (span p s).
Proof.
  induction s as [|c s IH]; [reflexivity|].
  simpl. destruct (p c); simpl; [rewrite IH|]; reflexivity.
Qed.

Lemma span_all (p : ascii -> bool) (s : string) : all_chars p (fst (span p s)) = true.
Proof.
  induction s as [|c s IH]; [reflexivity|].
  simpl. destruct (p c) eqn:E; simpl; [rewrite E, IH|]; reflexivity.
Qed.

(** The tokens of a text, by its leading run of word characters. *)
Lemma tokens_from_span (s current : string) :
  tokens_from current s
  = close_token (current ++ fst (span is_word s)) ++ tokens (snd (span is_word s)).
Proof.
  revert current. induction s as [|c s IH]; intros current; simpl.
  - rewrite append_empty_r, app_nil_r. reflexivity.
  - destruct (is_word c) eqn:E; simpl.
    + rewrite IH, append_assoc. reflexivity.
    + rewrite append_empty_r. unfold tokens. simpl. rewrite E. reflexivity.
Qed.

Lemma whole_tokens_skip (cls : ascii -> bool) (c : ascii) (s : string) :
  is_word c = false -> whole_tokens cls (String c s) = whole_tokens cls s.
Proof.
  intros E. unfold whole_tokens, tokens. simpl. rewrite E. reflexivity.
Qed.

Section WholeTokens.

Variable cls : ascii -> bool.
Hypothesis cls_word : forall c, cls c = true -> is_word c = true.

Let pattern : regex := Seq Boundary (Seq (Plus cls) Boundary).

Lemma not_word_not_cls (c : ascii) : is_word c = false -> cls c = false.
Proof.
  intros E. destruct (cls c) eqn:C; [|reflexivity].
  rewrite (cls_word c C) in E. discriminate.
Qed.

(** [[cls]+\b]: the whole run of [cls] characters, provided no word
    character follows it; giving characters back never helps. *)
Lemma match_plus_boundary (s : string) :
  match_plus cls s
             (fun c rest => if xorb (is_word c) (word_at rest) then Some rest else None)
  = match fst (span cls s) with
    | EmptyString => None
    | String _ _ => if word_at (snd (span cls s)) then None else Some (snd (span cls s))
    end.
Proof.
  induction s as [|c s IH]; [reflexivity|].
  cbn [match_plus span]. destruct (cls c) eqn:C; [|reflexivity].
  cbn [fst snd]. rewrite IH, (cls_word c C).
  destruct s as [|d s]; [reflexivity|].
  cbn [span word_at]. destruct (cls d) eqn:D; cbn [fst snd word_at].
  - destruct (word_at (snd (span cls s))); [|reflexivity].
    rewrite (cls_word d D). reflexivity.
  - destruct (is_word d); reflexivity.
Qed.

Lemma rmatch_pattern (prev : option ascii) (s : string) :
  rmatch pattern prev s (fun _ tl => Some tl)
  = if xorb (word_before prev) (word_at s) then
      match fst (span cls s) with
      | EmptyString => None
      | String _ _ => if word_at (snd (span cls s)) then None else Some (snd (span cls s))
      end
    else None.
Proof.
  unfold pattern. cbn [rmatch word_before].
  destruct (xorb (word_before prev) (word_at s)); [|reflexivity].
  apply match_plus_boundary.
Qed.

Lemma span_cls_is_word (s : string) :
  word_at (snd (span cls s)) = false -> span is_word s = span cls s.
Proof.
  induction s as [|c s IH]; [reflexivity|].
  cbn [span]. destruct (cls c) eqn:C; cbn [fst snd].
  - intros H. rewrite (cls_word c C), (IH H). reflexivity.
  - cbn [word_at]. intros ->. reflexivity.
Qed.

Lemma span_cls_cut_short (s : string) :
  word_at (snd (span cls s)) = true -> all_chars cls (fst (span is_word s)) = false.
Proof.
  induction s as [|c s IH]; [discriminate|].
  cbn [span]. destruct (cls c) eqn:C; cbn [fst snd].
  - intros H. rewrite (cls_word c C). cbn [fst all_chars]. rewrite (IH H).
    apply andb_false_r.
  - cbn [word_at]. intros ->. cbn [fst all_chars]. rewrite C. reflexivity.
Qed.

(** The whole tokens of a text, by its leading run of word characters. *)
Lemma whole_tokens_span (s : string) :
  whole_tokens cls s
  = filter (all_chars cls) (close_token (fst (span is_word s)))
    ++ whole_tokens cls (snd (span is_word s)).
Proof.
  unfold whole_tokens at 1. unfold tokens. rewrite tokens_from_span, filter_app.
  reflexivity.
Qed.

(** The scan of [findall] in its three states: stepping over the rest of
    a match, between tokens, and inside a token that cannot match. *)
Lemma findall_from_states (s : string) :
  forall prev,
    (forall n, String.length (fst (span cls s)) = n ->
               word_at (snd (span cls s)) = false ->
               findall_from pattern prev s n = whole_tokens cls (snd (span cls s))) /\
    (word_before prev = false ->
     findall_from pattern prev s 0 = whole_tokens cls s) /\
    (word_before prev = true ->
     findall_from pattern prev s 0 = whole_tokens cls (snd (span is_word s))).
Proof.
  induction s as [|c s IH]; intros prev.
  - repeat split; intros; reflexivity.
  - destruct (IH (Some c)) as (IHskip & IHfresh & IHinside).
    assert (Hfresh : word_before prev = false ->
                     findall_from pattern prev (String c s) 0
                     = whole_tokens cls (String c s)).
    { intros Hprev. cbn [findall_from]. rewrite rmatch_pattern, Hprev.
      cbn [xorb word_at]. destruct (is_word c) eqn:W.
      - rewrite (whole_tokens_span (String c s)).
        cbn [span]. rewrite W. cbn [fst snd close_token filter].
        destruct (cls c) eqn:C; cbn [fst snd].
        + destruct (word_at (snd (span cls s))) eqn:E.
          * cbn [all_chars]. rewrite C, (span_cls_cut_short s E). cbn [andb app].
            apply IHinside. exact W.
          * rewrite (span_cls_is_word s E).
            cbn [all_chars]. rewrite C, span_all. cbn [andb app].
            pose proof (span_length cls s) as Hlen.
            replace (String.length (String c s) - String.length (snd (span cls s)))
              with (S (String.length (fst (span cls s))))
              by (cbn [String.length]; lia).
            cbn [substring]. rewrite span_substring.
            f_equal. replace (S (String.length (fst (span cls s))) - 1)
              with (String.length (fst (span cls s))) by lia.
            apply IHskip; reflexivity.
        + cbn [all_chars]. rewrite C. cbn [andb app]. apply IHinside. exact W.
      - rewrite (whole_tokens_skip cls c s W). apply IHfresh. exact W. }
    assert (Hinside : word_before prev = true ->
                      findall_from pattern prev (String c s) 0
                      = whole_tokens cls (snd (span is_word (String c s)))).
    { intros Hprev. cbn [findall_from]. rewrite rmatch_pattern, Hprev.
      cbn [xorb word_at span]. destruct (is_word c) eqn:W; cbn [negb fst snd].
      - apply IHinside. exact W.
      - rewrite (not_word_not_cls c W). cbn [fst].
        rewrite (whole_tokens_skip cls c s W). apply IHfresh. exact W. }
    split; [|split; assumption].
    intros n Hn Hend. revert Hn Hend. cbn [span].
    destruct (cls c) eqn:C; cbn [fst snd String.length]; intros Hn Hend.
    + subst n. cbn [findall_from]. apply IHskip; [reflexivity|exact Hend].
    + subst n. destruct (word_before prev) eqn:Hprev.
      * rewrite (Hinside eq_refl). cbn [word_at] in Hend.
        cbn [span]. rewrite Hend. reflexivity.
      * apply Hfresh. reflexivity.
Qed.

(** [re.findall] with [\b[cls]+\b] yields the whole tokens of class
    [cls]. *)
Lemma findall_whole_tokens (s : string) :
  findall pattern s = whole_tokens cls s.
Proof.
  unfold findall. apply (findall_from_states s None). reflexivity.
Qed.

End WholeTokens.

Lemma letter_is_word (c : ascii) : is_letter c = true -> is_word c = true.
Proof.
  unfold is_word. intros ->. rewrite orb_true_r. reflexivity.
Qed.

Lemma digit_is_word (c : ascii) : is_digit c = true -> is_word c = true.
Proof.
  unfold is_word. intros ->. reflexivity.
Qed.

Lemma findall_words (s : string) :
  findall word_pattern s = whole_tokens is_letter s.
Proof. apply findall_whole_tokens, letter_is_word. Qed.

Lemma findall_integers (s : string) :
  findall integer_pattern s = whole_tokens is_digit s.
Proof. apply findall_whole_tokens, digit_is_word. Qed.

(* ===================================================================== *)
(** ** IngestionPipeline *)
(* ===================================================================== *)

Lemma find_push_first (u text : string) (us : list document) (d : document) :
  find (matches (ByUsername u)) us = Some d ->
  find (matches (ByUsername u)) (push_first (ByUsername u) text us)
  = Some (Doc (username d) (password d) (extracted_content d ++ [text])).
Proof.
  induction us as [|x us IH]; [discriminate|].
  cbn [find push_first]. destruct (matches (ByUsername u) x) eqn:E.
  - intros [= ->]. cbn [find]. cbn [matches username] in *. rewrite E. reflexivity.
  - intros H. cbn [find]. rewrite E. apply IH, H.
Qed.

(** C7: when the pipeline receives the extracted [text] (and the store is
    healthy), the record pushed onto the identity's [extracted_content] is
    [text] with every newline and carriage return removed, while what is
    printed is the unmodified [text], the whole tokens of letters of the
    unmodified [text] and its whole tokens of digits. *)
Theorem C7_store_cleaned_report_unmodified :
  forall u text w,
    healthy w ->
    let out := Pipeline.ingest u (JStr text) w in
    fst out = Ok tt /\
    users (snd out) = push_first (ByUsername u) (without_line_breaks text) (users w) /\
    (forall d,
        find (matches (ByUsername u)) (users w) = Some d ->
        find (matches (ByUsername u)) (users (snd out))
        = Some (Doc (username d) (password d)
                    (extracted_content d ++ [without_line_breaks text]))) /\
    trace (snd out)
    = trace w ++ [PrintJson "Extracted Content: " (JStr text);
                  PrintList "Extracted Words:" (whole_tokens is_letter text);
                  PrintList "Extracted Integers:" (whole_tokens is_digit text)].
Proof.
  intros u text w Hh out.
  assert (Hout : out
                 = (Ok tt,
                    emit (PrintList "Extracted Integers:" (whole_tokens is_digit text))
                      (emit (PrintList "Extracted Words:" (whole_tokens is_letter text))
                         (emit (PrintJson "Extracted Content: " (JStr text))
                            (set_users
                               (push_first (ByUsername u) (without_line_breaks text)
                                           (users w)) w))))).
  { subst out. unfold Pipeline.ingest, update_one_push, db_call. unfold_monad.
    unfold healthy in Hh. rewrite Hh.
    rewrite replace_removes_line_breaks, findall_words, findall_integers.
    reflexivity. }
  rewrite Hout. cbn [fst snd]. repeat split.
  - intros d Hd. cbn. apply find_push_first, Hd.
  - cbn. rewrite <- !app_assoc. reflexivity.
Qed.

(** C7 on the end-to-end example of the specification: for user ["u1"]
    and the extracted text ["Hello\r\nWorld"], the record stored is
    ["HelloWorld"] and the words reported are ["Hello"] and ["World"]. *)
Lemma C7_store_cleaned_report_unmodified_witness :
  let out := Pipeline.ingest "u1" (JStr Scenario.hello_world) Scenario.registered_u1 in
  fst out = Ok tt /\
  users (snd out) = [Doc "u1" "p1" ["HelloWorld"]] /\
  trace (snd out)
  = trace Scenario.registered_u1
    ++ [PrintJson "Extracted Content: " (JStr Scenario.hello_world);
        PrintList "Extracted Words:" ["Hello"; "World"];
        PrintList "Extracted Integers:" []].
Proof.
  destruct (C7_store_cleaned_report_unmodified
              "u1" Scenario.hello_world Scenario.registered_u1 eq_refl)
    as (Hok & Husers & _ & Htrace).
  split; [exact Hok|]. split; [exact Husers|exact Htrace].
Defined.

(** The same example run through the code from end to end: ["u1"/"p1"] is
    created, the camera delivers a frame, the endpoint answers
    ["Hello\r\nWorld"]; the stored record is ["HelloWorld"] and the words
    reported are ["Hello"] and ["World"]. *)
Example end_to_end :
  let w0 := World [] [] [] (Device true ["frame"] false 0) []
                  (Scenario.constant_service 200 (Scenario.parsed Scenario.hello_world)) [] in
  let w1 := snd (create_user (Some "u1") (Some "p1") w0) in
  let out := Pipeline.pipeline "u1" (Some Scenario.sample_key) w1 in
  fst out = Ok tt /\
  users (snd out) = [Doc "u1" "p1" ["HelloWorld"]] /\
  In (PrintList "Extracted Words:" ["Hello"; "World"]) (trace (snd out)) /\
  In (PrintList "Extracted Integers:" []) (trace (snd out)) /\
  In (PrintJson "Extracted Content: " (JStr Scenario.hello_world)) (trace (snd out)).
Proof.
  vm_compute. repeat split; auto 12.
Qed.

(* ===================================================================== *)
(** ** CaptureSource *)
(* ===================================================================== *)

(** When a frame is delivered, [release()] has been called once and the
    device is no longer held. *)
Lemma capture_image_success (w : world) (f : frame) :
  fst (Capture.capture_image w) = Ok (Some f) ->
  opened (camera (snd (Capture.capture_image w))) = false /\
  releases (camera (snd (Capture.capture_image w))) = S (releases (camera w)).
Proof.
  unfold Capture.capture_image, Capture.VideoCapture, Capture.isOpened,
    Capture.read, Capture.release, Capture.del_cap.
  unfold_monad. unfold_world. simpl.
  destruct (available (camera w)); simpl; [|discriminate].
  destruct (feed (camera w)); simpl; [discriminate|].
  intros _. split; reflexivity.
Qed.

(** When no frame is delivered, [release()] has not been called at all:
    the device is closed only by the end of the local [cap]. *)
Lemma capture_image_failure (w : world) :
  fst (Capture.capture_image w) = Ok None ->
  releases (camera (snd (Capture.capture_image w))) = releases (camera w) /\
  opened (camera (snd (Capture.capture_image w))) = false.
Proof.
  unfold Capture.capture_image, Capture.VideoCapture, Capture.isOpened,
    Capture.read, Capture.release, Capture.del_cap.
  unfold_monad. unfold_world. simpl.
  destruct (available (camera w)); simpl; [|split; reflexivity].
  destruct (feed (camera w)); simpl; [split; reflexivity|discriminate].
Qed.


(* ===================================================================== *)
(** ** Further properties: CaptureSource *)
(* ===================================================================== *)

(** [capture_image] never raises; it returns a frame exactly when device
    0 can be opened and has a frame to deliver, and then it is the next
    frame of the feed, which moves on by one; and it touches nothing but
    the camera and the output. *)
Theorem capture_image_outcomes :
  forall w,
    let out := Capture.capture_image w in
    (exists r, fst out = Ok r) /\
    (forall f, fst out = Ok (Some f) <->
               available (camera w) = true /\ hd_error (feed (camera w)) = Some f) /\
    (forall f, fst out = Ok (Some f) ->
               feed (camera (snd out)) = tl (feed (camera w))) /\
    users (snd out) = users w /\ stdin (snd out) = stdin w /\
    files (snd out) = files w /\ db_faults (snd out) = db_faults w.
Proof.
  intros w out. subst out.
  unfold Capture.capture_image, Capture.VideoCapture, Capture.isOpened,
    Capture.read, Capture.release, Capture.del_cap.
  unfold_monad. unfold_world. simpl.
  destruct (available (camera w)); simpl.
  - destruct (feed (camera w)) as [|f0 rest]; simpl.
    + split; [eauto|].
      split; [intros f; split; [discriminate|intros [_ H]; discriminate]|].
      split; [discriminate|repeat split].
    + split; [eauto|].
      split; [intros f; split; [intros [= ->]; split; reflexivity
                               |intros [_ [= ->]]; reflexivity]|].
      split; [reflexivity|repeat split].
  - split; [eauto|].
    split; [intros f; split; [discriminate|intros [H _]; discriminate]|].
    split; [discriminate|repeat split].
Qed.

(* ===================================================================== *)
(** ** Further properties: OCRClient *)
(* ===================================================================== *)



(** A reply whose body is not JSON: with status 200 or 400 the error of
    [response.json()] comes out of the function, which does not return
    [None]; with any other status the body is not looked at and the result
    is [None]. *)
Theorem upload_body_not_json :
  forall image_url local_file_path api_key language w r w1 e,
    truthy api_key = true ->
    truthy image_url || truthy local_file_path = true ->
    send_request image_url local_file_path api_key language w = (Ok r, w1) ->
    json_body r = Raise e ->
    let out := upload_and_extract_content image_url local_file_path api_key language w in
    (status_code r = 200%Z \/ status_code r = 400%Z -> fst out = Raise e) /\
    (status_code r <> 200%Z -> status_code r <> 400%Z -> fst out = Ok JNull).
Proof.
  intros image_url local_file_path api_key language w r w1 e Hk Hs Hsend Hbody out.
  subst out. rewrite (upload_after_response _ _ _ _ _ _ _ Hk Hs Hsend).
  unfold parse_body, response_json. unfold_monad. rewrite Hbody. split.
  - intros [H|H]; rewrite H; reflexivity.
  - intros H2 H4. apply Z.eqb_neq in H2, H4. rewrite H2, H4. reflexivity.
Qed.

Lemma upload_body_not_json_witness :
  let e := Exc JSONDecodeError "Expecting value: line 1 column 1 (char 0)" in
  let service code := fun _ : request => Ok (Response code (Raise e)) in
  let w code := World [] [] [] Scenario.no_camera [] (service code) [] in
  fst (upload_and_extract_content (Some Scenario.sample_url) None
                                  (Some Scenario.sample_key) "eng" (w 400%Z))
  = Raise e /\
  fst (upload_and_extract_content (Some Scenario.sample_url) None
                                  (Some Scenario.sample_key) "eng" (w 500%Z))
  = Ok JNull.
Proof.
  intros e service w. split.
  - apply (proj1 (upload_body_not_json
                    (Some Scenario.sample_url) None (Some Scenario.sample_key) "eng"
                    (w 400%Z) (Response 400 (Raise e))
                    (emit (Post (PostUrl Scenario.sample_url Scenario.sample_key "eng"))
                          (w 400%Z))
                    e eq_refl eq_refl eq_refl eq_refl)).
    right. reflexivity.
  - apply (proj2 (upload_body_not_json
                    (Some Scenario.sample_url) None (Some Scenario.sample_key) "eng"
                    (w 500%Z) (Response 500 (Raise e))
                    (emit (Post (PostUrl Scenario.sample_url Scenario.sample_key "eng"))
                          (w 500%Z))
                    e eq_refl eq_refl eq_refl eq_refl)); discriminate.
Defined.

(** Bodies the validation of line 72 lets through although they do not
    have the expected shape make the function raise instead of returning
    [None]: a first result without [ParsedText] gives a [KeyError], and a
    non-empty [ParsedResults] that is not an array gives a [TypeError] or a
    [KeyError]. *)
Theorem upload_unexpected_shape_raises :
  forall image_url local_file_path api_key language w r w1 fields,
    truthy api_key = true ->
    truthy image_url || truthy local_file_path = true ->
    send_request image_url local_file_path api_key language w = (Ok r, w1) ->
    (status_code r = 200%Z \/ status_code r = 400%Z) ->
    json_body r = Ok (JObj fields) ->
    let out := upload_and_extract_content image_url local_file_path api_key language w in
    (forall item others,
        dict_get "ParsedResults" fields = Some (JArr (JObj item :: others)) ->
        dict_get "ParsedText" item = None ->
        fst out = Raise (Exc KeyError "'ParsedText'")) /\
    (forall v,
        dict_get "ParsedResults" fields = Some v ->
        py_bool v = true ->
        (forall items, v <> JArr items) ->
        exists e, fst out = Raise e /\ (exc_cls e = TypeError \/ exc_cls e = KeyError)).
Proof.
  intros image_url local_file_path api_key language w r w1 fields
         Hk Hs Hsend Hstatus Hbody out.
  assert (Hout : exists code, out = parse_body r (emit (Classify code) w1)).
  { subst out. rewrite (upload_after_response _ _ _ _ _ _ _ Hk Hs Hsend).
    destruct Hstatus as [Hc|Hc]; rewrite Hc; eexists; reflexivity. }
  destruct Hout as [code Hout]. rewrite Hout. clear Hout.
  unfold parse_body, response_json, invalid_structure. unfold_monad.
  rewrite Hbody. cbn [py_contains py_getitem_key]. split.
  - intros item others Hpr Htext. rewrite Hpr. cbn. rewrite Htext. reflexivity.
  - intros v Hv Htruthy Hshape. rewrite Hv. cbn [negb]. rewrite Htruthy. cbn [negb].
    destruct v as [| b | z | f | s | items | kv]; cbn in Htruthy |- *;
      try discriminate.
    + eexists; split; [reflexivity|left; reflexivity].
    + eexists; split; [reflexivity|left; reflexivity].
    + eexists; split; [reflexivity|left; reflexivity].
    + destruct s as [|c s]; [discriminate|].
      eexists; split; [reflexivity|left; reflexivity].
    + exfalso. exact (Hshape items eq_refl).
    + eexists; split; [reflexivity|right; reflexivity].
Qed.

Lemma upload_unexpected_shape_raises_witness :
  let w body := Scenario.world_of [] [] 200 body in
  fst (upload_and_extract_content (Some Scenario.sample_url) None
         (Some Scenario.sample_key) "eng"
         (w (JObj [("ParsedResults", JArr [JObj [("ErrorMessage", JStr "timeout")]])])))
  = Raise (Exc KeyError "'ParsedText'") /\
  exists e,
    fst (upload_and_extract_content (Some Scenario.sample_url) None
           (Some Scenario.sample_key) "eng"
           (w (JObj [("ParsedResults", JStr "none")]))) = Raise e /\
    (exc_cls e = TypeError \/ exc_cls e = KeyError).
Proof.
  intros w. split.
  - apply (proj1 (upload_unexpected_shape_raises
                    (Some Scenario.sample_url) None (Some Scenario.sample_key) "eng"
                    (w (JObj [("ParsedResults",
                               JArr [JObj [("ErrorMessage", JStr "timeout")]])]))
                    (Response 200 (Ok (JObj [("ParsedResults",
                               JArr [JObj [("ErrorMessage", JStr "timeout")]])])))
                    _ _ eq_refl eq_refl eq_refl (or_introl eq_refl) eq_refl)
                 [("ErrorMessage", JStr "timeout")] []); reflexivity.
  - apply (proj2 (upload_unexpected_shape_raises
                    (Some Scenario.sample_url) None (Some Scenario.sample_key) "eng"
                    (w (JObj [("ParsedResults", JStr "none")]))
                    (Response 200 (Ok (JObj [("ParsedResults", JStr "none")])))
                    _ _ eq_refl eq_refl eq_refl (or_introl eq_refl) eq_refl)
                 (JStr "none")); try reflexivity.
    intros items. discriminate.
Defined.

Lemma with_events_nil (w : world) : with_events [] w = w.
Proof. destruct w. unfold with_events. simpl. rewrite app_nil_r. reflexivity. Qed.

Lemma with_events_app (evs evs' : list event) (w : world) :
  with_events evs' (with_events evs w) = with_events (evs ++ evs') w.
Proof. unfold with_events. simpl. rewrite app_assoc. reflexivity. Qed.

Lemma talks_silent {A} (n : nat) (m : M A) :
  (forall w, snd (m w) = w) -> talks n m.
Proof.
  intros H w. exists []. rewrite H, with_events_nil. split; [reflexivity|apply Nat.le_0_l].
Qed.

Lemma talks_log (n : nat) (e : event) : is_post e = false -> talks n (log e).
Proof.
  intros He w. exists [e]. split; [reflexivity|].
  unfold posts. cbn [filter]. rewrite He. apply Nat.le_0_l.
Qed.

Lemma talks_bind {A B} (n p : nat) (m : M A) (k : A -> M B) :
  talks n m -> (forall a, talks p (k a)) -> talks (n + p) (bind m k).
Proof.
  intros Hm Hk w. unfold bind. destruct (Hm w) as (evs & Hw & Hn).
  destruct (m w) as [[a|e] w1]; cbn [snd] in *; subst w1.
  - destruct (Hk a (with_events evs w)) as (evs' & Hw' & Hp).
    exists (evs ++ evs'). rewrite Hw', with_events_app. split; [reflexivity|].
    unfold posts in *. rewrite filter_app, length_app. lia.
  - exists evs. split; [reflexivity|lia].
Qed.

Lemma talks_send_request (image_url local_file_path api_key : option string)
      (language : string) :
  talks 1 (send_request image_url local_file_path api_key language).
Proof.
  assert (Hpost : forall req, talks 1 (post req)).
  { intros req w. exists [Post req]. split; [reflexivity|apply Nat.le_refl]. }
  unfold send_request. destruct (truthy local_file_path); [|apply Hpost].
  apply (talks_bind 0 1); [|intros; apply Hpost].
  apply talks_silent. intros w. unfold open_rb.
  destruct (lookup_file _ _); reflexivity.
Qed.

Lemma talks_classify_status (r : response) : talks 0 (classify_status r).
Proof.
  unfold classify_status.
  destruct (status_code r =? 200)%Z; [|destruct (status_code r =? 400)%Z];
    (apply (talks_bind 0 0); [apply talks_log; reflexivity|]);
    intros; apply talks_silent; reflexivity.
Qed.

Lemma talks_parse_body (r : response) : talks 0 (parse_body r).
Proof.
  assert (Hlift : forall A (x : result A), talks 0 (lift x)).
  { intros. apply talks_silent. reflexivity. }
  assert (Hret : forall A (x : A), talks 0 (ret x)).
  { intros. apply talks_silent. reflexivity. }
  unfold parse_body, response_json, invalid_structure.
  apply (talks_bind 0 0).
  { apply (talks_bind 0 0); [apply talks_log; reflexivity|intros; apply Hlift]. }
  intros result. apply (talks_bind 0 0).
  { apply (talks_bind 0 0); [apply Hlift|]. intros present.
    destruct (negb present); [apply Hret|].
    apply (talks_bind 0 0); [apply Hlift|intros; apply Hret]. }
  intros invalid. destruct invalid.
  - apply (talks_bind 0 0); [apply talks_log; reflexivity|intros; apply Hret].
  - repeat (apply (talks_bind 0 0); [apply Hlift|intros]). apply Hret.
Qed.

Lemma upload_talks (image_url local_file_path api_key : option string)
      (language : string) :
  talks 1 (upload_and_extract_content image_url local_file_path api_key language).
Proof.
  unfold upload_and_extract_content.
  destruct (negb (truthy api_key)); [apply (talks_silent 1); reflexivity|].
  destruct (negb (truthy image_url) && negb (truthy local_file_path));
    [apply (talks_silent 1); reflexivity|].
  unfold request_and_parse.
  apply (talks_bind 1 0); [apply talks_send_request|]. intros r.
  apply (talks_bind 0 0); [apply talks_classify_status|]. intros continue.
  destruct (negb continue); [apply talks_silent; reflexivity|apply talks_parse_body].
Qed.

(** Whatever its arguments and the world, [upload_and_extract_content]
    changes nothing but the trace: the store, the input, the camera and
    the files are as before; it sends at most one request, and it does
    nothing at all when it rejects its arguments. *)
Theorem upload_only_talks_to_the_endpoint :
  forall image_url local_file_path api_key language w,
    let out := upload_and_extract_content image_url local_file_path api_key language w in
    (exists evs, snd out = with_events evs w /\ length (posts evs) <= 1) /\
    untraced (snd out) = untraced w /\
    (truthy api_key = false \/
     truthy image_url = false /\ truthy local_file_path = false ->
     snd out = w).
Proof.
  intros image_url local_file_path api_key language w out.
  assert (Htalks : exists evs, snd out = with_events evs w /\ length (posts evs) <= 1).
  { subst out. apply upload_talks. }
  split; [exact Htalks|]. split.
  - destruct Htalks as (evs & -> & _). reflexivity.
  - subst out. unfold upload_and_extract_content.
    intros [Hk|[Hu Hf]].
    + rewrite Hk. reflexivity.
    + rewrite Hu, Hf. destruct (truthy api_key); reflexivity.
Qed.

(* ===================================================================== *)
(** ** Further properties: AuthFlow *)
(* ===================================================================== *)

Lemma py_or_cases (arg : option string) (prompt : string) (w : world) :
  (exists s w1, py_or arg (input prompt) w = (Ok s, w1) /\ users w1 = users w /\
                (truthy arg = true -> arg = Some s)) \/
  (exists e w1, py_or arg (input prompt) w = (Raise e, w1) /\ users w1 = users w).
Proof.
  unfold py_or, input, ret. destruct (truthy arg) eqn:Ht.
  - left. destruct arg as [s|]; [|discriminate]. exists s, w. repeat split.
  - destruct (stdin w) as [|line rest].
    + right. eexists. eexists. split; reflexivity.
    + left. eexists. eexists. split; [reflexivity|]. split; [reflexivity|discriminate].
Qed.

Lemma py_or_getpass_cases (arg : option string) (prompt : string) (w : world) :
  (exists s w1, py_or arg (getpass prompt) w = (Ok s, w1) /\ users w1 = users w /\
                (truthy arg = true -> arg = Some s)) \/
  (exists e w1, py_or arg (getpass prompt) w = (Raise e, w1) /\ users w1 = users w).
Proof.
  unfold py_or, getpass, ret. destruct (truthy arg) eqn:Ht.
  - left. destruct arg as [s|]; [|discriminate]. exists s, w. repeat split.
  - destruct (stdin w) as [|line rest].
    + right. eexists. eexists. split; reflexivity.
    + left. eexists. eexists. split; [reflexivity|]. split; [reflexivity|discriminate].
Qed.

Lemma find_one_cases (q : query) (w : world) :
  (exists w1, find_one q w = (Ok (find (matches q) (users w)), w1) /\
              users w1 = users w) \/
  (exists e w1, find_one q w = (Raise e, w1) /\ users w1 = users w).
Proof.
  unfold find_one, db_call. destruct (db_faults w) as [|[e|] rest].
  - left. eexists. split; reflexivity.
  - right. eexists. eexists. split; reflexivity.
  - left. eexists. split; reflexivity.
Qed.

(** One turn of [login] leaves the collection as it is, and when it
    returns a username, a document with that username is on record whose
    password is the explicit password argument, if one was given. *)
Lemma login_turn_sound (user_input password_input : option string) (w : world) :
  users (snd (login_turn user_input password_input w)) = users w /\
  forall u,
    fst (login_turn user_input password_input w) = Ok (Some u) ->
    exists d, In d (users w) /\ username d = u /\
              (truthy user_input = true -> user_input = Some u) /\
              (truthy password_input = true -> password_input = Some (password d)).
Proof.
  unfold login_turn. unfold bind.
  destruct (py_or_cases user_input "Enter your username: " w)
    as [(a & w1 & -> & Hw1 & Ha)|(e & w1 & -> & Hw1)];
    cbn [fst snd]; [|split; [exact Hw1|intros u H; discriminate H]].
  destruct (py_or_getpass_cases password_input "Enter your password: " w1)
    as [(b & w2 & -> & Hw2 & Hb)|(e & w2 & -> & Hw2)];
    cbn [fst snd]; [|split; [congruence|intros u H; discriminate H]].
  destruct (find_one_cases (ByCredentials a b) w2)
    as [(w3 & -> & Hw3)|(e & w3 & -> & Hw3)];
    cbn [fst snd]; [|split; [congruence|intros u H; discriminate H]].
  destruct (find (matches (ByCredentials a b)) (users w2)) as [d|] eqn:Hfind;
    unfold log, ret; cbn [fst snd users emit].
  - split; [congruence|]. intros u [= <-].
    destruct (find_some _ _ Hfind) as [Hin Hm]. cbn [matches] in Hm.
    apply andb_true_iff in Hm. destruct Hm as [Hm1 Hm2].
    apply String.eqb_eq in Hm1, Hm2. exists d.
    split; [congruence|]. split; [exact Hm1|]. split; [exact Ha|].
    intros Ht. rewrite (Hb Ht), Hm2. reflexivity.
  - split; [congruence|intros u H; discriminate H].
Qed.

(** [login] is sound: whenever it returns a username, whatever was typed
    and however many turns it took, a document with that username is in
    the store, with the password given when one was given explicitly; and
    the store is as it was. *)
Theorem login_returns_registered_users_only :
  forall fuel user_input password_input w u w',
    login fuel user_input password_input w = Some (Ok u, w') ->
    users w' = users w /\
    exists d, In d (users w) /\ username d = u /\
              (truthy user_input = true -> user_input = Some u) /\
              (truthy password_input = true -> password_input = Some (password d)).
Proof.
  induction fuel as [|fuel IH]; intros user_input password_input w u w' H;
    [discriminate|].
  cbn [login] in H.
  destruct (login_turn_sound user_input password_input w) as [Hsame Hsound].
  destruct (login_turn user_input password_input w) as [[[u1|]|e] w1];
    cbn [fst snd] in *.
  - injection H as <- <-. split; [exact Hsame|]. apply Hsound. reflexivity.
  - destruct (IH _ _ _ _ _ H) as [Hsame' Hd]. rewrite Hsame in *.
    split; assumption.
  - discriminate.
Qed.

Lemma login_returns_registered_users_only_witness :
  users (emit (Print "Login successful.") Scenario.registered_u1)
  = users Scenario.registered_u1 /\
  exists d, In d (users Scenario.registered_u1) /\ username d = "u1" /\
            (truthy (Some "u1") = true -> Some "u1" = Some "u1") /\
            (truthy (Some "p1") = true -> Some "p1" = Some (password d)).
Proof.
  apply (login_returns_registered_users_only
           1 (Some "u1") (Some "p1") Scenario.registered_u1 "u1"
           (emit (Print "Login successful.") Scenario.registered_u1)).
  reflexivity.
Defined.

(** An interactive turn of [login]: two lines are read, whatever they
    are, and looked up. *)
Lemma login_turn_typed (a b : string) (rest : list string) (w : world) :
  healthy w -> stdin w = a :: b :: rest ->
  login_turn None None w
  = match find (matches (ByCredentials a b)) (users w) with
    | Some _ => (Ok (Some a), after_typing rest successful_turn w)
    | None => (Ok None, after_typing rest (failed_turns 1) w)
    end.
Proof.
  intros Hh Hin. unfold healthy in Hh.
  destruct w as [us fs inp cam fl svc tr]. cbn [db_faults stdin] in Hh, Hin. subst fs inp.
  unfold login_turn, py_or, getpass, input, find_one, db_call, after_typing,
    successful_turn.
  unfold_monad. unfold_world.
  cbn [truthy stdin db_faults users camera files ocr_service trace].
  destruct (find (matches (ByCredentials a b)) us);
    cbn [failed_turns unauthorized users db_faults stdin camera files ocr_service trace];
    rewrite <- !app_assoc; reflexivity.
Qed.

Lemma failed_turns_app (n : nat) (evs : list event) :
  failed_turns 1 ++ failed_turns n ++ evs = failed_turns (S n) ++ evs.
Proof. reflexivity. Qed.

(** The retry loop of the interactive [login]: after any number of
    attempts that match no document, each answered by "Unauthorized", the
    first matching pair of lines ends the loop with the username typed.
    It takes one turn more than there were failed attempts, and with fewer
    turns the loop is still running. *)
Theorem login_retries_until_success :
  forall attempts u p rest w d,
    healthy w ->
    stdin w = typed attempts ++ u :: p :: rest ->
    Forall (fun a => find (matches (ByCredentials (fst a) (snd a))) (users w) = None)
           attempts ->
    find (matches (ByCredentials u p)) (users w) = Some d ->
    login (S (length attempts)) None None w
    = Some (Ok u, after_typing rest (failed_turns (length attempts) ++ successful_turn) w) /\
    forall fuel, fuel <= length attempts -> login fuel None None w = None.
Proof.
  induction attempts as [|[a b] attempts IH]; intros u p rest w d Hh Hin Hfail Hmatch.
  - cbn [typed app] in Hin. split.
    + cbn [login length]. rewrite (login_turn_typed u p rest w Hh Hin), Hmatch.
      reflexivity.
    + intros fuel Hfuel. inversion Hfuel. reflexivity.
  - cbn [typed app] in Hin. inversion Hfail as [|x l Ha Hrest]; subst x l.
    cbn [fst snd] in Ha.
    pose proof (login_turn_typed a b (typed attempts ++ u :: p :: rest) w Hh Hin) as Hturn.
    rewrite Ha in Hturn.
    set (w1 := after_typing (typed attempts ++ u :: p :: rest) (failed_turns 1) w) in *.
    destruct (IH u p rest w1 d) as [Hok Hrunning]; try assumption; try reflexivity.
    split.
    + cbn [length]. change (login (S (S (length attempts))) None None w)
        with (match login_turn None None w with
              | (Ok (Some username), w') => Some (Ok username, w')
              | (Ok None, w') => login (S (length attempts)) None None w'
              | (Raise e, w') => Some (Raise e, w')
              end).
      rewrite Hturn, Hok. unfold w1, after_typing. cbn [users db_faults camera files
        ocr_service trace]. rewrite <- app_assoc, failed_turns_app. reflexivity.
    + intros [|fuel] Hfuel; [reflexivity|]. cbn [login]. rewrite Hturn.
      apply Hrunning. cbn [length] in Hfuel. lia.
Qed.

Lemma login_retries_until_success_witness :
  let w := World [Doc "u1" "p1" []] [] ["u1"; "oops"; ""; "p1"; "u1"; "p1"; "more"]
                 Scenario.no_camera [] (Scenario.constant_service 200 JNull) [] in
  login 3 None None w
  = Some (Ok "u1", after_typing ["more"] (failed_turns 2 ++ successful_turn) w) /\
  forall fuel, fuel <= 2 -> login fuel None None w = None.
Proof.
  intros w.
  apply (login_retries_until_success [("u1", "oops"); ("", "p1")] "u1" "p1" ["more"] w
                                     (Doc "u1" "p1" [])).
  - reflexivity.
  - reflexivity.
  - repeat constructor.
  - reflexivity.
Defined.

(** [login] has no handler: when the input ends, the [EOFError] of the
    prompt comes out of it, and when the database call fails, the
    driver's own error does, class and message, where [create_user] would
    have turned it into "User already exists.". *)
Theorem login_lets_errors_through :
  forall fuel user_input password_input w,
    (truthy user_input = false -> stdin w = [] ->
     login (S fuel) user_input password_input w
     = Some (Raise (Exc EOFError "EOF when reading a line"),
             emit (Prompt "Enter your username: ") w)) /\
    (forall e rest,
        truthy user_input = true -> truthy password_input = true ->
        db_faults w = Some e :: rest ->
        login (S fuel) user_input password_input w
        = Some (Raise e, set_db_faults rest w) /\
        fst (create_user user_input password_input w) = Raise already_exists).
Proof.
  intros fuel user_input password_input w. split.
  - intros Hu Hin. cbn [login]. run_auth. rewrite Hu, Hin. reflexivity.
  - intros e rest Hu Hp Hfault. split.
    + cbn [login]. run_auth. rewrite Hu, Hp, Hfault. reflexivity.
    + run_auth. rewrite Hu, Hp, Hfault. reflexivity.
Qed.

Lemma login_lets_errors_through_witness :
  let e := Exc PyMongoError "connection closed" in
  let w := World [Doc "u1" "p1" []] [Some e] [] Scenario.no_camera []
                 (Scenario.constant_service 200 JNull) [] in
  login 1 None None w
  = Some (Raise (Exc EOFError "EOF when reading a line"),
          emit (Prompt "Enter your username: ") w) /\
  login 1 (Some "u1") (Some "p1") w = Some (Raise e, set_db_faults [] w) /\
  fst (create_user (Some "u1") (Some "p1") w) = Raise already_exists.
Proof.
  intros e w. split.
  - apply (proj1 (login_lets_errors_through 0 None None w)); reflexivity.
  - apply (proj2 (login_lets_errors_through 0 (Some "u1") (Some "p1") w) e []);
      reflexivity.
Defined.

Lemma find_credentials_after_insert (u p q : string) (us : list document) :
  find (matches (ByUsername u)) us = None ->
  find (matches (ByCredentials u q)) (us ++ [Doc u p []])
  = if (p =? q) then Some (Doc u p []) else None.
Proof.
  induction us as [|x us IH]; cbn [find app matches username password]; intros Hf.
  - rewrite String.eqb_refl. cbn [andb]. destruct (p =? q); reflexivity.
  - cbn [matches] in Hf. destruct (username x =? u); [discriminate|].
    cbn [andb]. apply IH, Hf.
Qed.

(** Creating an account and logging in compose: once [create_user] has
    accepted a new non-empty username and password on a healthy store,
    [login] with that pair returns the username on its first turn, and
    [login] with that username and any other non-empty password never
    returns. *)
Theorem login_after_create :
  forall u p w,
    u <> "" -> p <> "" -> healthy w ->
    find (matches (ByUsername u)) (users w) = None ->
    let w' := snd (create_user (Some u) (Some p) w) in
    fst (create_user (Some u) (Some p) w) = Ok (u, p) /\
    (forall fuel,
        login (S fuel) (Some u) (Some p) w'
        = Some (Ok u, emit (Print "Login successful.") w')) /\
    (forall q fuel, q <> "" -> q <> p -> login fuel (Some u) (Some q) w' = None).
Proof.
  intros u p w Hu Hp Hh Hf w'. subst w'.
  rewrite (create_user_fresh u p w Hu Hp Hh Hf). cbn [fst snd].
  split; [reflexivity|]. split.
  - intros fuel. apply (login_right_password fuel u p _ (Doc u p [])); try assumption.
    cbn [users emit set_users]. rewrite (find_credentials_after_insert u p p _ Hf).
    rewrite String.eqb_refl. reflexivity.
  - intros q fuel Hq Hqp. apply login_wrong_password; try assumption.
    cbn [users emit set_users]. rewrite (find_credentials_after_insert u p q _ Hf).
    destruct (String.eqb_spec p q) as [E|E]; [congruence|reflexivity].
Qed.

Lemma login_after_create_witness :
  let w := Scenario.world_of [Doc "carol" "c" []] [] 200 JNull in
  let w' := snd (create_user (Some "dave") (Some "pw") w) in
  fst (create_user (Some "dave") (Some "pw") w) = Ok ("dave", "pw") /\
  (forall fuel,
      login (S fuel) (Some "dave") (Some "pw") w'
      = Some (Ok "dave", emit (Print "Login successful.") w')) /\
  (forall q fuel, q <> "" -> q <> "pw" -> login fuel (Some "dave") (Some q) w' = None).
Proof.
  intros w.
  apply (login_after_create "dave" "pw" w); try discriminate; reflexivity.
Defined.

(* --------------------------------------------------------------------- *)
(** *** What no operation does to the credentials on record *)
(* --------------------------------------------------------------------- *)

Lemma credentials_push_first (q : query) (text : string) (us : list document) :
  credentials (push_first q text us) = credentials us.
Proof.
  unfold credentials. induction us as [|d us IH]; [reflexivity|].
  cbn [push_first]. destruct (matches q d); cbn [map username password];
    [reflexivity|]. rewrite IH. reflexivity.
Qed.

Lemma length_push_first (q : query) (text : string) (us : list document) :
  length (push_first q text us) = length us.
Proof.
  induction us as [|d us IH]; [reflexivity|].
  cbn [push_first]. destruct (matches q d); cbn [length]; [reflexivity|].
  rewrite IH. reflexivity.
Qed.

Section StoreViews.

Variable T : Type.
Variable view : list document -> T.
Hypothesis view_push : forall q text us, view (push_first q text us) = view us.

Let kept {A} (m : M A) : Prop := preserves (fun w => view (users w)) m.

Lemma kept_same {A} (m : M A) : (forall w, users (snd (m w)) = users w) -> kept m.
Proof. intros H w. cbn beta. rewrite H. reflexivity. Qed.

Lemma kept_bind {A B} (m : M A) (k : A -> M B) :
  kept m -> (forall a, kept (k a)) -> kept (bind m k).
Proof.
  intros Hm Hk w. unfold bind. specialize (Hm w). cbn beta in *.
  destruct (m w) as [[a|e] w']; cbn [snd] in *; [rewrite Hk|]; exact Hm.
Qed.

Lemma kept_db_call {A} (op : list document -> A * list document) :
  (forall us, view (snd (op us)) = view us) -> kept (db_call op).
Proof.
  intros Hop w. unfold db_call. specialize (Hop (users w)). cbn beta.
  destruct (db_faults w) as [|[e|] rest]; cbn [snd users set_db_faults];
    try reflexivity; destruct (op (users w)); exact Hop.
Qed.

Lemma kept_capture_image : kept Capture.capture_image.
Proof.
  apply kept_same. intros w.
  unfold Capture.capture_image, Capture.VideoCapture, Capture.isOpened,
    Capture.read, Capture.release, Capture.del_cap.
  unfold_monad. unfold_world. simpl.
  destruct (available (camera w)); simpl; [|reflexivity].
  destruct (feed (camera w)); reflexivity.
Qed.

Lemma kept_upload (image_url local_file_path api_key : option string) (language : string) :
  kept (upload_and_extract_content image_url local_file_path api_key language).
Proof.
  apply kept_same. intros w.
  destruct (upload_talks image_url local_file_path api_key language w) as (evs & -> & _).
  reflexivity.
Qed.

Lemma kept_ingest (u : string) (content : json) : kept (Pipeline.ingest u content).
Proof.
  unfold Pipeline.ingest.
  destruct content; try (apply kept_same; reflexivity).
  apply kept_bind.
  - apply kept_db_call. intros us. apply view_push.
  - intros _. repeat (apply kept_bind; [apply kept_same; reflexivity|intros _]).
    apply kept_same. reflexivity.
Qed.

Lemma kept_pipeline (u : string) (key : option string) : kept (Pipeline.pipeline u key).
Proof.
  unfold Pipeline.pipeline.
  apply kept_bind; [apply kept_db_call; reflexivity|intros _].
  apply kept_bind; [apply kept_capture_image|intros [image|]].
  - apply kept_bind; [apply kept_same; reflexivity|intros _].
    apply kept_bind; [apply kept_same; reflexivity|intros _].
    apply kept_bind; [apply kept_upload|intros content]. apply kept_ingest.
  - apply kept_same. reflexivity.
Qed.

End StoreViews.

Lemma login_keeps_store (fuel : nat) (user_input password_input : option string) :
  forall w out w',
    login fuel user_input password_input w = Some (out, w') -> users w' = users w.
Proof.
  induction fuel as [|fuel IH]; intros w out w' H; [discriminate|].
  cbn [login] in H.
  destruct (login_turn_sound user_input password_input w) as [Hsame _].
  destruct (login_turn user_input password_input w) as [[[u1|]|e] w1];
    cbn [snd] in Hsame.
  - injection H as _ <-. exact Hsame.
  - rewrite (IH _ _ _ H). exact Hsame.
  - injection H as _ <-. exact Hsame.
Qed.

(** No operation of the module changes or removes a credential on
    record: [create_user] leaves the list of (username, password) pairs as
    it is or adds one pair at its end; [login] leaves the whole collection
    as it is; the pipeline, whatever the camera and the endpoint do, leaves
    the pairs and the number of documents as they are. *)
Theorem credentials_are_never_altered :
  forall w,
    (forall user_input password_input,
        let w' := snd (create_user user_input password_input w) in
        credentials (users w') = credentials (users w) \/
        exists u p, credentials (users w') = credentials (users w) ++ [(u, p)]) /\
    (forall fuel user_input password_input out w',
        login fuel user_input password_input w = Some (out, w') ->
        users w' = users w) /\
    (forall u key,
        let w' := snd (Pipeline.pipeline u key w) in
        credentials (users w') = credentials (users w) /\
        length (users w') = length (users w)).
Proof.
  intros w. split; [|split].
  - intros user_input password_input w'. subst w'.
    destruct (create_user_cases user_input password_input w)
      as [[_ Hsame]|(u & p & _ & Hnew & _)].
    + left. rewrite Hsame. reflexivity.
    + right. exists u, p. rewrite Hnew. unfold credentials. rewrite map_app. reflexivity.
  - intros fuel user_input password_input out w' H.
    exact (login_keeps_store fuel user_input password_input w out w' H).
  - intros u key w'. subst w'. split.
    + apply (kept_pipeline _ credentials credentials_push_first u key w).
    + apply (kept_pipeline _ (@length document) length_push_first u key w).
Qed.

Lemma credentials_are_never_altered_witness :
  let w := World [Doc "u1" "p1" []] [] [] (Device true ["frame"] false 0) []
                 (Scenario.constant_service 200 (Scenario.parsed Scenario.hello_world)) [] in
  users (emit (Print "Login successful.") w) = users w /\
  credentials (users (snd (Pipeline.pipeline "u1" (Some Scenario.sample_key) w)))
  = [("u1", "p1")].
Proof.
  intros w. split.
  - apply (proj1 (proj2 (credentials_are_never_altered w))
                 1 (Some "u1") (Some "p1") (Ok "u1")). reflexivity.
  - apply (proj2 (proj2 (credentials_are_never_altered w)) "u1" (Some Scenario.sample_key)).
Defined.

(* ===================================================================== *)
(** ** Further properties: IngestionPipeline *)
(* ===================================================================== *)

Lemma push_first_absent (q : query) (text : string) (us : list document) :
  find (matches q) us = None -> push_first q text us = us.
Proof.
  induction us as [|d us IH]; [reflexivity|].
  cbn [find push_first]. destruct (matches q d); [discriminate|].
  intros H. rewrite (IH H). reflexivity.
Qed.

Lemma push_first_split (u text : string) (before after : list document) (d : document) :
  (forall x, In x before -> username x <> u) -> username d = u ->
  push_first (ByUsername u) text (before ++ d :: after)
  = before ++ Doc u (password d) (extracted_content d ++ [text]) :: after.
Proof.
  intros Hbefore Hd. induction before as [|x before IH]; cbn [app push_first matches].
  - rewrite Hd, String.eqb_refl. reflexivity.
  - destruct (String.eqb_spec (username x) u) as [E|E].
    + exfalso. apply (Hbefore x); [left; reflexivity|exact E].
    + rewrite IH; [reflexivity|]. intros y Hy. apply Hbefore. right. exact Hy.
Qed.

(** What the [$push] of line 200 does to the collection: the record goes
    to the end of the [extracted_content] of the first document with the
    username, every other document, a later one with the same username
    included, is left as it is; and when no document has the username the
    collection is unchanged, although the call succeeds and the words are
    printed all the same. *)
Theorem ingest_appends_to_first_match :
  forall u text w,
    healthy w ->
    let out := Pipeline.ingest u (JStr text) w in
    fst out = Ok tt /\
    (find (matches (ByUsername u)) (users w) = None -> users (snd out) = users w) /\
    (forall before d after,
        users w = before ++ d :: after ->
        username d = u ->
        (forall x, In x before -> username x <> u) ->
        users (snd out)
        = before ++ Doc u (password d) (extracted_content d ++ [cleaned text]) :: after).
Proof.
  intros u text w Hh out. subst out. unfold healthy in Hh.
  unfold Pipeline.ingest, update_one_push, db_call. unfold_monad. rewrite Hh.
  cbn [fst snd users emit set_users]. fold (cleaned text).
  split; [reflexivity|]. split.
  - intros Hf. apply push_first_absent, Hf.
  - intros before d after Hus Hd Hbefore. rewrite Hus.
    apply push_first_split; assumption.
Qed.

Lemma ingest_appends_to_first_match_witness :
  let us := [Doc "ann" "a" ["old"]; Doc "bob" "b" ["x"]; Doc "bob" "other" []] in
  let w := Scenario.world_of us [] 200 JNull in
  users (snd (Pipeline.ingest "bob" (JStr Scenario.hello_world) w))
  = [Doc "ann" "a" ["old"]; Doc "bob" "b" ["x"; "HelloWorld"]; Doc "bob" "other" []] /\
  users (snd (Pipeline.ingest "zed" (JStr Scenario.hello_world) w)) = us.
Proof.
  intros us w. split.
  - apply (proj2 (proj2 (ingest_appends_to_first_match
                            "bob" Scenario.hello_world w eq_refl))
                 [Doc "ann" "a" ["old"]] (Doc "bob" "b" ["x"]) [Doc "bob" "other" []]).
    + reflexivity.
    + reflexivity.
    + intros x [<-|[]]. discriminate.
  - apply (proj1 (proj2 (ingest_appends_to_first_match
                            "zed" Scenario.hello_world w eq_refl))).
    reflexivity.
Defined.

(** When what [upload_and_extract_content] returned is not a string,
    nothing reaches the store and no database call is made: for [None]
    the failure is printed; for any other value, such as a [ParsedText]
    that is a number, [.replace] raises an [AttributeError] and the world
    is as it was. *)
Theorem ingest_of_a_non_string :
  forall u content w,
    (forall text, content <> JStr text) ->
    users (snd (Pipeline.ingest u content w)) = users w /\
    db_faults (snd (Pipeline.ingest u content w)) = db_faults w /\
    (content = JNull ->
     Pipeline.ingest u content w = (Ok tt, emit (Print "Failed to extract content.") w)) /\
    (content <> JNull ->
     exists e, Pipeline.ingest u content w = (Raise e, w) /\ exc_cls e = AttributeError).
Proof.
  intros u content w Hnot.
  destruct content as [| b | z | f | s | items | kv];
    try (exfalso; exact (Hnot s eq_refl));
    cbn [Pipeline.ingest]; unfold raise, log; cbn [fst snd users db_faults emit];
    (split; [reflexivity|]); (split; [reflexivity|]); split;
    try discriminate; try reflexivity; try congruence;
    intros _; eexists; split; reflexivity.
Qed.

Lemma ingest_of_a_non_string_witness :
  let w := Scenario.world_of [Doc "u1" "p1" []] [] 200 JNull in
  Pipeline.ingest "u1" JNull w = (Ok tt, emit (Print "Failed to extract content.") w) /\
  exists e, Pipeline.ingest "u1" (JInt 42) w = (Raise e, w) /\ exc_cls e = AttributeError.
Proof.
  intros w. split.
  - apply (ingest_of_a_non_string "u1" JNull w); [discriminate|reflexivity].
  - apply (ingest_of_a_non_string "u1" (JInt 42) w); discriminate.
Defined.

(** The first half of the pipeline when the camera delivers a frame: the
    frame is shown and written to ["captured_image.jpg"], and the rest is
    the upload of that file followed by [ingest]. *)
Lemma pipeline_after_capture (u : string) (key : option string) (w : world)
      (f : frame) (later : list frame) :
  healthy w -> available (camera w) = true -> feed (camera w) = f :: later ->
  Pipeline.pipeline u key w
  = bind (upload_and_extract_content None (Some "captured_image.jpg") key "eng")
         (Pipeline.ingest u) (after_capture f w).
Proof.
  intros Hh Ha Hfeed. unfold healthy in Hh.
  destruct w as [us fs inp [av fd op rl] fl svc tr].
  cbn [db_faults camera available feed] in Hh, Ha, Hfeed. subst fs av fd.
  unfold Pipeline.pipeline, find_all, db_call, Capture.capture_image,
    Capture.VideoCapture, Capture.isOpened, Capture.read, Capture.release,
    Capture.del_cap, Pipeline.imwrite, after_capture.
  unfold try_except, log, raise, ret. unfold_world. unfold bind at 1 2 3 4 5 6 7 8.
  cbn [users db_faults stdin camera files ocr_service trace available feed opened
       releases negb tl fst snd].
  reflexivity.
Qed.

(** The pipeline when the camera delivers nothing. *)
Lemma pipeline_without_frame (u : string) (key : option string) (w : world) :
  healthy w -> (available (camera w) = false \/ feed (camera w) = []) ->
  exists reason d,
    Pipeline.pipeline u key w
    = (Ok tt,
       World (users w) (db_faults w) (stdin w) d (files w) (ocr_service w)
             (trace w ++ [Print ("Error: " ++ reason);
                          Print "Failed to capture an image."])).
Proof.
  intros Hh Hcam. unfold healthy in Hh.
  destruct w as [us fs inp [av fd op rl] fl svc tr].
  cbn [db_faults camera available feed] in Hh, Hcam. subst fs.
  unfold Pipeline.pipeline, find_all, db_call, Capture.capture_image,
    Capture.VideoCapture, Capture.isOpened, Capture.read, Capture.release,
    Capture.del_cap.
  unfold_monad. unfold_world.
  cbn [users db_faults stdin camera files ocr_service trace available feed opened
       releases].
  destruct av; cbn [negb].
  - destruct Hcam as [Hcam|Hcam]; [discriminate|]. subst fd.
    exists "Could not read frame.". eexists. cbn [exc_msg].
    cbn [users db_faults stdin camera files ocr_service trace available feed opened
         releases].
    rewrite <- app_assoc. reflexivity.
  - exists "Could not open camera.". eexists. cbn [exc_msg].
    cbn [users db_faults stdin camera files ocr_service trace available feed opened
         releases].
    rewrite <- app_assoc. reflexivity.
Qed.

(** Without a frame there is no OCR call: when device 0 cannot be opened
    or delivers nothing, the pipeline ends normally having printed the
    error of the capture and "Failed to capture an image."; no request has
    been sent, no file written, and the store is as before. *)
Theorem pipeline_stops_without_a_frame :
  forall u key w,
    healthy w ->
    (available (camera w) = false \/ feed (camera w) = []) ->
    let out := Pipeline.pipeline u key w in
    fst out = Ok tt /\
    users (snd out) = users w /\
    files (snd out) = files w /\
    posts (trace (snd out)) = posts (trace w) /\
    exists reason,
      trace (snd out)
      = trace w ++ [Print ("Error: " ++ reason); Print "Failed to capture an image."].
Proof.
  intros u key w Hh Hcam out. subst out.
  destruct (pipeline_without_frame u key w Hh Hcam) as (reason & d & ->).
  cbn [fst snd users files trace].
  split; [reflexivity|]. split; [reflexivity|]. split; [reflexivity|]. split.
  - unfold posts. rewrite filter_app. cbn. apply app_nil_r.
  - exists reason. reflexivity.
Qed.

Lemma pipeline_stops_without_a_frame_witness :
  let w := World [Doc "u1" "p1" []] [] [] Scenario.stalled_camera []
                 (Scenario.constant_service 200 (Scenario.parsed "never asked")) [] in
  let out := Pipeline.pipeline "u1" (Some Scenario.sample_key) w in
  fst out = Ok tt /\
  users (snd out) = users w /\
  files (snd out) = files w /\
  posts (trace (snd out)) = posts (trace w) /\
  exists reason,
    trace (snd out)
    = trace w ++ [Print ("Error: " ++ reason); Print "Failed to capture an image."].
Proof.
  intros w.
  apply (pipeline_stops_without_a_frame "u1" (Some Scenario.sample_key) w).
  - reflexivity.
  - right. reflexivity.
Defined.

(** The API key is only looked at after the capture: with a frame
    delivered but an empty or missing key, the pipeline raises
    [ValueError("API key is required")] once the frame has been taken from
    the camera, shown and written to ["captured_image.jpg"]; nothing is
    sent and the store is as before. *)
Theorem pipeline_checks_the_key_after_capturing :
  forall u key w f later,
    healthy w -> available (camera w) = true -> feed (camera w) = f :: later ->
    truthy key = false ->
    Pipeline.pipeline u key w
    = (Raise (Exc ValueError "API key is required"), after_capture f w).
Proof.
  intros u key w f later Hh Ha Hfeed Hk.
  rewrite (pipeline_after_capture u key w f later Hh Ha Hfeed).
  unfold bind, upload_and_extract_content. rewrite Hk. reflexivity.
Qed.

Lemma pipeline_checks_the_key_after_capturing_witness :
  let w := World [Doc "u1" "p1" []] [] [] (Device true ["frame1"; "frame2"] false 0) []
                 (Scenario.constant_service 200 JNull) [] in
  Pipeline.pipeline "u1" None w
  = (Raise (Exc ValueError "API key is required"), after_capture "frame1" w) /\
  feed (camera (after_capture "frame1" w)) = ["frame2"] /\
  files (after_capture "frame1" w) = [("captured_image.jpg", "frame1")].
Proof.
  intros w. split; [|split; reflexivity].
  apply (pipeline_checks_the_key_after_capturing "u1" None w "frame1" ["frame2"]);
    reflexivity.
Defined.

Lemma upload_captured_file (k : string) (f : frame) (w : world) :
  send_request None (Some "captured_image.jpg") (Some k) "eng" (after_capture f w)
  = (ocr_service w (PostFile f k "eng"),
     emit (Post (PostFile f k "eng")) (after_capture f w)).
Proof.
  unfold send_request, open_rb, post. unfold bind.
  cbn [truthy String.eqb Ascii.eqb Bool.eqb negb value files after_capture lookup_file
       ocr_service].
  reflexivity.
Qed.

(** The pipeline when a frame is delivered and the endpoint answers 200
    with a text. *)
Lemma pipeline_success (u k : string) (w : world) (f : frame) (later : list frame)
      (text : string) :
  healthy w -> available (camera w) = true -> feed (camera w) = f :: later ->
  k <> "" ->
  ocr_service w (PostFile f k "eng")
  = Ok (Response 200 (Ok (JObj [("ParsedResults",
                                 JArr [JObj [("ParsedText", JStr text)]])]))) ->
  exists w',
    Pipeline.pipeline u (Some k) w = (Ok tt, w') /\
    users w' = push_first (ByUsername u) (cleaned text) (users w) /\
    stdin w' = stdin w /\
    trace w'
    = trace w ++ [ShowImage "Captured Image"; Post (PostFile f k "eng");
                  Classify SUCCESS; ReadJson;
                  PrintJson "Extracted Content: " (JStr text);
                  PrintList "Extracted Words:" (findall word_pattern text);
                  PrintList "Extracted Integers:" (findall integer_pattern text)].
Proof.
  intros Hh Ha Hfeed Hk Hsvc.
  rewrite (pipeline_after_capture u (Some k) w f later Hh Ha Hfeed).
  unfold bind at 1.
  rewrite (upload_after_response None (Some "captured_image.jpg") (Some k) "eng"
             (after_capture f w) _ _ (truthy_some k Hk) eq_refl
             (eq_trans (upload_captured_file k f w)
                       (f_equal (fun r => (r, _)) Hsvc))).
  cbn [status_code Z.eqb Pos.eqb].
  unfold parse_body, response_json, invalid_structure. unfold_monad.
  cbn [json_body py_contains py_getitem_key py_getitem_0 dict_get String.eqb
       Ascii.eqb Bool.eqb negb py_bool].
  unfold healthy in Hh.
  unfold Pipeline.ingest, update_one_push, db_call. unfold_monad.
  cbn [db_faults emit after_capture users trace fst snd set_users]. rewrite Hh.
  eexists. split; [reflexivity|]. split; [reflexivity|]. split; [reflexivity|].
  cbn [trace set_users emit after_capture]. rewrite <- !app_assoc. reflexivity.
Qed.

(** What is uploaded is the frame just captured: with a frame [f] and a
    key [k], the one request of the pipeline is the file upload of [f]
    with [k] and language ["eng"], whatever ["captured_image.jpg"] held
    before; and when the endpoint answers 200 with a text, the pipeline
    ends normally, the first document of [u] gets the cleaned text, and
    the tokens printed are those of the text as received. *)
Theorem pipeline_uploads_the_captured_frame :
  forall u k w f later text,
    healthy w -> available (camera w) = true -> feed (camera w) = f :: later ->
    k <> "" ->
    ocr_service w (PostFile f k "eng")
    = Ok (Response 200 (Ok (JObj [("ParsedResults",
                                   JArr [JObj [("ParsedText", JStr text)]])]))) ->
    let out := Pipeline.pipeline u (Some k) w in
    fst out = Ok tt /\
    users (snd out) = push_first (ByUsername u) (cleaned text) (users w) /\
    stdin (snd out) = stdin w /\
    trace (snd out)
    = trace w ++ [ShowImage "Captured Image"; Post (PostFile f k "eng");
                  Classify SUCCESS; ReadJson;
                  PrintJson "Extracted Content: " (JStr text);
                  PrintList "Extracted Words:" (findall word_pattern text);
                  PrintList "Extracted Integers:" (findall integer_pattern text)].
Proof.
  intros u k w f later text Hh Ha Hfeed Hk Hsvc out. subst out.
  destruct (pipeline_success u k w f later text Hh Ha Hfeed Hk Hsvc)
    as (w' & -> & Hus & Hin & Htr).
  cbn [fst snd]. split; [reflexivity|]. split; [exact Hus|]. split; [exact Hin|exact Htr].
Qed.

Lemma pipeline_uploads_the_captured_frame_witness :
  let service req :=
    match req with
    | PostFile "new frame" _ _ => Ok (Response 200 (Ok (Scenario.parsed Scenario.hello_world)))
    | _ => Ok (Response 500 (Ok JNull))
    end in
  let w := World [Doc "u1" "p1" []] [] [] (Device true ["new frame"] false 0)
                 [("captured_image.jpg", "stale frame")] service [] in
  let out := Pipeline.pipeline "u1" (Some Scenario.sample_key) w in
  fst out = Ok tt /\
  users (snd out) = [Doc "u1" "p1" ["HelloWorld"]] /\
  stdin (snd out) = [] /\
  trace (snd out)
  = [ShowImage "Captured Image"; Post (PostFile "new frame" Scenario.sample_key "eng");
     Classify SUCCESS; ReadJson;
     PrintJson "Extracted Content: " (JStr Scenario.hello_world);
     PrintList "Extracted Words:" ["Hello"; "World"];
     PrintList "Extracted Integers:" []].
Proof.
  intros service w.
  apply (pipeline_uploads_the_captured_frame
           "u1" Scenario.sample_key w "new frame" [] Scenario.hello_world);
    try reflexivity; discriminate.
Defined.

(** When the endpoint answers with a status other than 200 and 400,
    nothing is stored: the pipeline ends normally with "Failed to extract
    content." and the store is as before. *)
Theorem pipeline_stores_nothing_on_a_failed_request :
  forall u k w f later r,
    healthy w -> available (camera w) = true -> feed (camera w) = f :: later ->
    k <> "" ->
    ocr_service w (PostFile f k "eng") = Ok r ->
    status_code r <> 200%Z -> status_code r <> 400%Z ->
    let out := Pipeline.pipeline u (Some k) w in
    fst out = Ok tt /\
    users (snd out) = users w /\
    trace (snd out)
    = trace w ++ [ShowImage "Captured Image"; Post (PostFile f k "eng");
                  Classify SERVER_ERROR; Print "Failed to extract content."].
Proof.
  intros u k w f later r Hh Ha Hfeed Hk Hsvc H2 H4 out.
  assert (Hout : out
                 = (Ok tt,
                    emit (Print "Failed to extract content.")
                      (emit (Classify SERVER_ERROR)
                         (emit (Post (PostFile f k "eng")) (after_capture f w))))).
  { subst out.
    rewrite (pipeline_after_capture u (Some k) w f later Hh Ha Hfeed).
    unfold bind at 1.
    rewrite (upload_after_response None (Some "captured_image.jpg") (Some k) "eng"
               (after_capture f w) _ _ (truthy_some k Hk) eq_refl
               (eq_trans (upload_captured_file k f w)
                         (f_equal (fun r => (r, _)) Hsvc))).
    apply Z.eqb_neq in H2, H4. rewrite H2, H4. reflexivity. }
  rewrite Hout. cbn [fst snd users trace emit after_capture].
  split; [reflexivity|]. split; [reflexivity|].
  rewrite <- !app_assoc. reflexivity.
Qed.

Lemma pipeline_stores_nothing_on_a_failed_request_witness :
  let w := World [Doc "u1" "p1" []] [] [] (Device true ["frame"] false 0) []
                 (Scenario.constant_service 500 (JStr "Internal Server Error")) [] in
  let out := Pipeline.pipeline "u1" (Some Scenario.sample_key) w in
  fst out = Ok tt /\
  users (snd out) = users w /\
  trace (snd out)
  = trace w ++ [ShowImage "Captured Image"; Post (PostFile "frame" Scenario.sample_key "eng");
                Classify SERVER_ERROR; Print "Failed to extract content."].
Proof.
  intros w.
  apply (pipeline_stores_nothing_on_a_failed_request
           "u1" Scenario.sample_key w "frame" []
           (Response 500 (Ok (JStr "Internal Server Error"))));
    try reflexivity; discriminate.
Defined.

(* ===================================================================== *)
(** ** Further properties: the script *)
(* ===================================================================== *)

Import Script.

Lemma upper_char_not_nil (c : ascii) : upper_char c <> [].
Proof.
  unfold upper_char.
  repeat match goal with |- context [if ?b then _ else _] => destruct b end;
    discriminate.
Qed.

Lemma upper_nil (s : string) : upper s = [] -> s = "".
Proof.
  destruct s as [|c s]; [reflexivity|]. cbn [upper]. intros H.
  apply app_eq_nil in H. destruct H as [H _]. destruct (upper_char_not_nil c H).
Qed.

Lemma codes_eqb_eq (a b : list N) : codes_eqb a b = true <-> a = b.
Proof.
  revert b. induction a as [|x a IH]; intros [|y b]; cbn [codes_eqb];
    try (split; [discriminate|discriminate]); [tauto|].
  rewrite andb_true_iff, N.eqb_eq, IH. split.
  - intros [-> ->]. reflexivity.
  - intros [= -> ->]. split; reflexivity.
Qed.

Lemma upper_char_L (c : ascii) :
  upper_char c = letter_L -> c = "L"%char \/ c = "l"%char.
Proof.
  destruct c as [[] [] [] [] [] [] [] []]; vm_compute; intros H;
    try discriminate H; auto.
Qed.

Lemma upper_char_C (c : ascii) :
  upper_char c = letter_C -> c = "C"%char \/ c = "c"%char.
Proof.
  destruct c as [[] [] [] [] [] [] [] []]; vm_compute; intros H;
    try discriminate H; auto.
Qed.

Lemma upper_one_code (line : string) (x : N) :
  upper line = [x] -> exists c, line = String c "" /\ upper_char c = [x].
Proof.
  destruct line as [|c rest]; [discriminate|]. cbn [upper]. intros H.
  exists c. destruct (upper_char c) as [|y [|z l]] eqn:E.
  - destruct (upper_char_not_nil c E).
  - cbn [app] in H. injection H as -> Hrest.
    rewrite (upper_nil rest Hrest). split; reflexivity.
  - cbn [app] in H. discriminate H.
Qed.

(** The choice is read case-insensitively and exactly: the script logs
    in for ["L"] and ["l"] only, and creates an account for ["C"] and
    ["c"] only. *)
Lemma choice_letters (line : string) :
  (codes_eqb (upper line) letter_L = true <-> line = "L" \/ line = "l") /\
  (codes_eqb (upper line) letter_C = true <-> line = "C" \/ line = "c").
Proof.
  split; rewrite codes_eqb_eq; split.
  - intros H. destruct (upper_one_code line _ H) as (c & -> & Hc).
    destruct (upper_char_L c Hc) as [->| ->]; auto.
  - intros [->| ->]; reflexivity.
  - intros H. destruct (upper_one_code line _ H) as (c & -> & Hc).
    destruct (upper_char_C c Hc) as [->| ->]; auto.
  - intros [->| ->]; reflexivity.
Qed.

(** Any answer other than ["L"], ["l"], ["C"] and ["c"], a longer word
    or an answer with spaces included, ends the script by [exit()] after
    "Invalid choice. Exiting.": nothing else is read, the store, the camera
    and the files are untouched, and nothing is sent. *)
Theorem main_rejects_any_other_choice :
  forall fuel key w line rest,
    stdin w = line :: rest ->
    line <> "L" -> line <> "l" -> line <> "C" -> line <> "c" ->
    main fuel key w
    = Some (SystemExit,
            after_typing rest
              [Prompt "Do you want to (L)ogin or (C)reate a new account? ";
               Print "Invalid choice. Exiting."] w).
Proof.
  intros fuel key w line rest Hin HL Hl HC Hc.
  unfold main, input. rewrite Hin.
  destruct (choice_letters line) as [HchoiceL HchoiceC].
  destruct (codes_eqb (upper line) letter_L) eqn:EL.
  { destruct (proj1 HchoiceL eq_refl); contradiction. }
  destruct (codes_eqb (upper line) letter_C) eqn:EC.
  { destruct (proj1 HchoiceC eq_refl); contradiction. }
  unfold after_typing, set_stdin, emit. cbn [users db_faults stdin camera files
    ocr_service trace]. rewrite <- app_assoc. reflexivity.
Qed.

Lemma main_rejects_any_other_choice_witness :
  let w := World [Doc "u1" "p1" []] [] ["login"; "u1"; "p1"]
                 (Device true ["frame"] false 0) []
                 (Scenario.constant_service 200 JNull) [] in
  main 5 (Some Scenario.sample_key) w
  = Some (SystemExit,
          after_typing ["u1"; "p1"]
            [Prompt "Do you want to (L)ogin or (C)reate a new account? ";
             Print "Invalid choice. Exiting."] w).
Proof.
  intros w.
  apply (main_rejects_any_other_choice 5 (Some Scenario.sample_key) w "login" ["u1"; "p1"]);
    try discriminate; reflexivity.
Defined.



(** [create_user] at the prompts: two lines are read, whatever they
    are. *)
Lemma create_user_typed (u p : string) (rest : list string) (w : world) :
  healthy w -> stdin w = u :: p :: rest ->
  create_user None None w
  = match find (matches (ByUsername u)) (users w) with
    | Some _ =>
        (Raise already_exists,
         after_typing rest
           [Prompt "Enter your username: "; Prompt "Enter your password: ";
            Print "Error: User already exists."] w)
    | None =>
        (Ok (u, p),
         World (users w ++ [Doc u p []]) [] rest (camera w) (files w) (ocr_service w)
               (trace w ++ [Prompt "Enter your username: "; Prompt "Enter your password: ";
                            Print "User created successfully."]))
    end.
Proof.
  intros Hh Hin. unfold healthy in Hh.
  destruct w as [us fs inp cam fl svc tr]. cbn [db_faults stdin] in Hh, Hin. subst fs inp.
  unfold create_user, py_or, getpass, input, find_one, insert_one, db_call, after_typing.
  unfold_monad. unfold_world.
  cbn [truthy stdin db_faults users camera files ocr_service trace].
  destruct (find (matches (ByUsername u)) us);
    cbn [users db_faults stdin camera files ocr_service trace exc_msg already_exists];
    rewrite <- !app_assoc; reflexivity.
Qed.

(** Choosing to create an account under a username that is taken: the
    script ends by [exit()] before the camera is opened; "Error: User
    already exists." is printed twice, by [create_user] and by the
    script; the store, the camera and the files are untouched and nothing
    is sent. *)
Theorem main_create_with_a_taken_username :
  forall fuel key w c u p rest,
    healthy w ->
    stdin w = c :: u :: p :: rest ->
    c = "C" \/ c = "c" ->
    present u (users w) ->
    main fuel key w
    = Some (SystemExit,
            after_typing rest
              [Prompt "Do you want to (L)ogin or (C)reate a new account? ";
               Prompt "Enter your username: "; Prompt "Enter your password: ";
               Print "Error: User already exists.";
               Print "Error: User already exists."] w).
Proof.
  intros fuel key w c u p rest Hh Hin Hc Hpresent.
  destruct (find_present u (users w) Hpresent) as [d Hd].
  unfold main, input. rewrite Hin.
  assert (HL : codes_eqb (upper c) letter_L = false)
    by (destruct Hc as [->| ->]; reflexivity).
  assert (HC : codes_eqb (upper c) letter_C = true)
    by (destruct Hc as [->| ->]; reflexivity).
  rewrite HL, HC.
  rewrite (create_user_typed u p rest
             (set_stdin (u :: p :: rest)
                (emit (Prompt "Do you want to (L)ogin or (C)reate a new account? ") w))
             Hh eq_refl).
  cbn [users set_stdin emit]. rewrite Hd.
  unfold on_error, after_typing, emit, set_stdin.
  cbn [users db_faults stdin camera files ocr_service trace exc_msg already_exists].
  rewrite <- !app_assoc. reflexivity.
Qed.

Lemma main_create_with_a_taken_username_witness :
  let w := World [Doc "u1" "p1" []] [] ["c"; "u1"; "another"; "left"]
                 (Device true ["frame"] false 0) []
                 (Scenario.constant_service 200 JNull) [] in
  main 1 (Some Scenario.sample_key) w
  = Some (SystemExit,
          after_typing ["left"]
            [Prompt "Do you want to (L)ogin or (C)reate a new account? ";
             Prompt "Enter your username: "; Prompt "Enter your password: ";
             Print "Error: User already exists.";
             Print "Error: User already exists."] w).
Proof.
  intros w.
  apply (main_create_with_a_taken_username
           1 (Some Scenario.sample_key) w "c" "u1" "another" ["left"]).
  - reflexivity.
  - reflexivity.
  - right. reflexivity.
  - exists (Doc "u1" "p1" []). split; [left; reflexivity|reflexivity].
Defined.

Lemma find_none_all (u : string) (us : list document) :
  find (matches (ByUsername u)) us = None -> forall x, In x us -> username x <> u.
Proof.
  intros Hf x Hx E. apply (find_none_not_in u us Hf).
  rewrite <- E. apply in_map, Hx.
Qed.

(** The whole script on its successful path: the user chooses to create
    an account, types a username that is free and a password, the camera
    delivers a frame and the endpoint answers 200 with a text.  The script
    then runs to its end, and the store has gained exactly one document:
    the new identity, holding the text without its line breaks. *)
Theorem main_creates_captures_and_stores :
  forall fuel k w c u p rest f later text,
    healthy w ->
    stdin w = c :: u :: p :: rest ->
    c = "C" \/ c = "c" ->
    find (matches (ByUsername u)) (users w) = None ->
    available (camera w) = true -> feed (camera w) = f :: later ->
    k <> "" ->
    ocr_service w (PostFile f k "eng")
    = Ok (Response 200 (Ok (JObj [("ParsedResults",
                                   JArr [JObj [("ParsedText", JStr text)]])]))) ->
    exists w',
      main fuel (Some k) w = Some (Finished, w') /\
      users w' = users w ++ [Doc u p [cleaned text]] /\
      stdin w' = rest /\
      posts (trace w') = posts (trace w) ++ [Post (PostFile f k "eng")].
Proof.
  intros fuel k w c u p rest f later text Hh Hin Hc Hfree Ha Hfeed Hk Hsvc.
  unfold main, input. rewrite Hin.
  assert (HL : codes_eqb (upper c) letter_L = false)
    by (destruct Hc as [->| ->]; reflexivity).
  assert (HC : codes_eqb (upper c) letter_C = true)
    by (destruct Hc as [->| ->]; reflexivity).
  rewrite HL, HC.
  rewrite (create_user_typed u p rest
             (set_stdin (u :: p :: rest)
                (emit (Prompt "Do you want to (L)ogin or (C)reate a new account? ") w))
             Hh eq_refl).
  cbn [users set_stdin emit]. rewrite Hfree.
  match goal with
  | |- context [run_pipeline u (Some k) ?x] => set (w1 := x)
  end.
  destruct (pipeline_success u k w1 f later text eq_refl Ha Hfeed Hk Hsvc)
    as (w2 & Hpipe & Hus & Hstdin & Htr).
  unfold run_pipeline. rewrite Hpipe.
  exists w2. split; [reflexivity|]. split; [|split].
  - rewrite Hus. unfold w1. cbn [users].
    rewrite (push_first_split u (cleaned text) (users w) [] (Doc u p [])
               (find_none_all u (users w) Hfree) eq_refl).
    reflexivity.
  - exact Hstdin.
  - rewrite Htr. unfold w1, posts.
    cbn [trace set_stdin emit users db_faults stdin camera files ocr_service].
    rewrite !filter_app. cbn [filter is_post app]. rewrite !app_nil_r. reflexivity.
Qed.

Lemma main_creates_captures_and_stores_witness :
  let w := World [Doc "u1" "p1" []] [] ["C"; "u2"; "p2"]
                 (Device true ["frame"] false 0) []
                 (Scenario.constant_service 200 (Scenario.parsed Scenario.hello_world)) [] in
  exists w',
    main 0 (Some Scenario.sample_key) w = Some (Finished, w') /\
    users w' = users w ++ [Doc "u2" "p2" [cleaned Scenario.hello_world]] /\
    stdin w' = [] /\
    posts (trace w') = posts (trace w) ++ [Post (PostFile "frame" Scenario.sample_key "eng")].
Proof.
  intros w.
  apply (main_creates_captures_and_stores
           0 Scenario.sample_key w "C" "u2" "p2" [] "frame" [] Scenario.hello_world);
    try reflexivity; try discriminate.
  left. reflexivity.
Defined.

(* ===================================================================== *)
(** ** Further properties: the text operations *)
(* ===================================================================== *)

Lemma tokens_from_delimited (s : string) :
  forall current t,
    In t (tokens_from current s) ->
    t <> "" /\
    ((exists run post,
         t = (current ++ run)%string /\ s = (run ++ post)%string /\ word_at post = false) \/
     (exists pre c post,
         s = (pre ++ String c (t ++ post))%string /\ is_word c = false /\
         word_at post = false)).
Proof.
  induction s as [|c s IH]; intros current t Ht; cbn [tokens_from] in Ht.
  - destruct current as [|x current]; [contradiction|].
    destruct Ht as [<-|[]]. split; [discriminate|].
    left. exists "", "". rewrite append_empty_r. repeat split.
  - destruct (is_word c) eqn:W.
    + destruct (IH _ _ Ht) as [Hne [(run & post & -> & -> & Hpost)
                                   |(pre & c' & post & -> & Hc' & Hpost)]];
        (split; [exact Hne|]).
      * left. exists (String c run), post. rewrite append_assoc. repeat split. exact Hpost.
      * right. exists (String c pre), c', post. repeat split; assumption.
    + apply in_app_or in Ht. destruct Ht as [Ht|Ht].
      * destruct current as [|x current]; [contradiction|].
        destruct Ht as [<-|[]]. split; [discriminate|].
        left. exists "", (String c s). rewrite append_empty_r. repeat split.
        cbn [word_at]. exact W.
      * destruct (IH _ _ Ht) as [Hne [(run & post & -> & -> & Hpost)
                                     |(pre & c' & post & -> & Hc' & Hpost)]];
          (split; [exact Hne|]); right.
        -- exists "", c, post. repeat split; assumption.
        -- exists (String c pre), c', post. repeat split; assumption.
Qed.

Lemma letter_is_not_digit (c : ascii) : is_letter c = true -> is_digit c = false.
Proof.
  destruct c as [[] [] [] [] [] [] [] []]; vm_compute; intros H;
    first [reflexivity|discriminate H].
Qed.

Section ReportedTokens.

Variable cls : ascii -> bool.
Hypothesis cls_word : forall c, cls c = true -> is_word c = true.

(** What [re.findall] reports for [\b[cls]+\b]: every item is non-empty,
    made of characters of the class only, and whole: it starts the text
    or follows a character that is not a word character, and it ends the
    text or is followed by one. *)
Lemma findall_items (text t : string) :
  In t (findall (Seq Boundary (Seq (Plus cls) Boundary)) text) ->
  t <> "" /\ all_chars cls t = true /\
  ((exists post, text = (t ++ post)%string /\ word_at post = false) \/
   (exists pre c post,
       text = (pre ++ String c (t ++ post))%string /\ is_word c = false /\
       word_at post = false)).
Proof.
  rewrite (findall_whole_tokens cls cls_word). unfold whole_tokens, tokens.
  intros Ht. apply filter_In in Ht. destruct Ht as [Ht Hall].
  destruct (tokens_from_delimited text "" t Ht)
    as [Hne [(run & post & -> & -> & Hpost)|Hmid]].
  - split; [exact Hne|]. split; [exact Hall|]. left. exists post. split; [reflexivity|exact Hpost].
  - split; [exact Hne|]. split; [exact Hall|]. right. exact Hmid.
Qed.

End ReportedTokens.

(** The words and integers the pipeline reports (lines 202-203): each
    word is a non-empty run of letters and each integer a non-empty run of
    digits, standing whole in the text as received, between characters
    that are not word characters or the ends of the text; and no item is in
    both lists. *)
Theorem reported_words_and_integers_are_whole_tokens :
  forall text t,
    let whole :=
      (exists post, text = (t ++ post)%string /\ word_at post = false) \/
      (exists pre c post,
          text = (pre ++ String c (t ++ post))%string /\ is_word c = false /\
          word_at post = false) in
    (In t (findall word_pattern text) ->
     t <> "" /\ all_chars is_letter t = true /\ whole) /\
    (In t (findall integer_pattern text) ->
     t <> "" /\ all_chars is_digit t = true /\ whole) /\
    (In t (findall word_pattern text) -> ~ In t (findall integer_pattern text)).
Proof.
  intros text t whole. subst whole. split; [|split].
  - apply (findall_items is_letter letter_is_word).
  - apply (findall_items is_digit digit_is_word).
  - intros Hw Hi.
    destruct (findall_items is_letter letter_is_word text t Hw) as (Hne & Hl & _).
    destruct (findall_items is_digit digit_is_word text t Hi) as (_ & Hd & _).
    destruct t as [|c t]; [exact (Hne eq_refl)|].
    cbn [all_chars] in Hl, Hd. apply andb_true_iff in Hl, Hd.
    rewrite (letter_is_not_digit c (proj1 Hl)) in Hd. destruct Hd. discriminate.
Qed.

Lemma reported_words_and_integers_are_whole_tokens_witness :
  "Yo" <> "" /\ all_chars is_letter "Yo" = true /\
  ((exists post, Scenario.sample_mixed = ("Yo" ++ post)%string /\ word_at post = false) \/
   (exists pre c post,
       Scenario.sample_mixed = (pre ++ String c ("Yo" ++ post))%string /\
       is_word c = false /\ word_at post = false)).
Proof.
  apply (proj1 (reported_words_and_integers_are_whole_tokens Scenario.sample_mixed "Yo")).
  vm_compute. right. left. reflexivity.
Defined.

Lemma without_line_breaks_clean (s : string) :
  (forall c, In c (list_ascii_of_string s) ->
             c <> Pipeline.newline /\ c <> Pipeline.carriage_return) ->
  without_line_breaks s = s.
Proof.
  induction s as [|c s IH]; [reflexivity|]. cbn [list_ascii_of_string without_line_breaks].
  intros H. destruct (H c (or_introl eq_refl)) as [Hn Hr].
  unfold is_line_break.
  destruct (Ascii.eqb_spec c Pipeline.newline); [contradiction|].
  destruct (Ascii.eqb_spec c Pipeline.carriage_return); [contradiction|].
  cbn [orb]. rewrite IH; [reflexivity|]. intros x Hx. apply H. right. exact Hx.
Qed.

Lemma without_line_breaks_has_none (s : string) (c : ascii) :
  In c (list_ascii_of_string (without_line_breaks s)) ->
  c <> Pipeline.newline /\ c <> Pipeline.carriage_return.
Proof.
  induction s as [|x s IH]; [intros []|]. cbn [without_line_breaks].
  unfold is_line_break.
  destruct (Ascii.eqb_spec x Pipeline.newline) as [|Hn]; [exact IH|].
  destruct (Ascii.eqb_spec x Pipeline.carriage_return) as [|Hr]; [exact IH|].
  cbn [orb list_ascii_of_string]. intros [<-|H]; [split; assumption|exact (IH H)].
Qed.

Lemma without_line_breaks_length (s : string) :
  String.length (without_line_breaks s) <= String.length s.
Proof.
  induction s as [|x s IH]; [apply Nat.le_refl|]. cbn [without_line_breaks].
  destruct (is_line_break x); cbn [String.length]; lia.
Qed.

(** The cleaning of line 198: the text stored holds no newline and no
    carriage return, is never longer than the text received, is the text
    itself when that has no line break, and cleaning it again changes
    nothing. *)
Theorem cleaning_removes_the_line_breaks_only :
  forall text,
    (forall c, In c (list_ascii_of_string (cleaned text)) ->
               c <> Pipeline.newline /\ c <> Pipeline.carriage_return) /\
    String.length (cleaned text) <= String.length text /\
    cleaned (cleaned text) = cleaned text /\
    ((forall c, In c (list_ascii_of_string text) ->
                c <> Pipeline.newline /\ c <> Pipeline.carriage_return) ->
     cleaned text = text).
Proof.
  intros text. unfold cleaned. rewrite !replace_removes_line_breaks.
  split; [apply without_line_breaks_has_none|].
  split; [apply without_line_breaks_length|].
  split.
  - apply without_line_breaks_clean. apply without_line_breaks_has_none.
  - apply without_line_breaks_clean.
Qed.

Lemma cleaning_removes_the_line_breaks_only_witness :
  cleaned "Time is 10 AM" = "Time is 10 AM".
Proof.
  apply (proj2 (proj2 (proj2 (cleaning_removes_the_line_breaks_only "Time is 10 AM")))).
  intros c Hc. cbn in Hc.
  repeat (destruct Hc as [<-|Hc]; [split; discriminate|]). destruct Hc.
Defined.

Lemma all_chars_app (p : ascii -> bool) (a b : string) :
  all_chars p (a ++ b) = all_chars p a && all_chars p b.
Proof.
  induction a as [|c a IH]; [reflexivity|].
  cbn [append all_chars]. rewrite IH, andb_assoc. reflexivity.
Qed.

Lemma all_chars_impl (p q : ascii -> bool) (a : string) :
  (forall c, p c = true -> q c = true) -> all_chars p a = true -> all_chars q a = true.
Proof.
  intros Hpq. induction a as [|c a IH]; [reflexivity|].
  cbn [all_chars]. rewrite !andb_true_iff. intros [Hc Ha]. split; [apply Hpq, Hc|apply IH, Ha].
Qed.

Lemma tokens_from_run (a rest current : string) :
  all_chars is_word a = true ->
  tokens_from current (a ++ rest) = tokens_from (current ++ a) rest.
Proof.
  revert current. induction a as [|c a IH]; intros current Ha.
  - rewrite append_empty_r. reflexivity.
  - cbn [all_chars] in Ha. apply andb_true_iff in Ha. destruct Ha as [Hc Ha].
    cbn [append tokens_from]. rewrite Hc, (IH _ Ha), append_assoc. reflexivity.
Qed.

Lemma whole_tokens_single (a : string) :
  a <> "" -> all_chars is_letter a = true -> whole_tokens is_letter a = [a].
Proof.
  intros Hne Ha. unfold whole_tokens, tokens.
  rewrite <- (append_empty_r a) at 1.
  rewrite (tokens_from_run a "" "" (all_chars_impl _ _ a letter_is_word Ha)).
  cbn [append tokens_from]. destruct a as [|c a]; [contradiction|].
  cbn [close_token filter]. rewrite Ha. reflexivity.
Qed.

Lemma without_line_breaks_app (a b : string) :
  without_line_breaks (a ++ b) = (without_line_breaks a ++ without_line_breaks b)%string.
Proof.
  induction a as [|c a IH]; [reflexivity|].
  cbn [append without_line_breaks]. destruct (is_line_break c); rewrite IH; reflexivity.
Qed.

Lemma without_line_breaks_letters (a : string) :
  all_chars is_letter a = true -> without_line_breaks a = a.
Proof.
  induction a as [|c a IH]; [reflexivity|].
  cbn [all_chars without_line_breaks]. rewrite andb_true_iff. intros [Hc Ha].
  replace (is_line_break c) with false; [rewrite (IH Ha); reflexivity|].
  revert Hc. clear. destruct c as [[] [] [] [] [] [] [] []]; vm_compute; intros H;
    first [reflexivity|discriminate H].
Qed.

(** The stored text does not always give back the reported words: for
    two words on two lines, separated by a carriage return and a newline,
    the pipeline reports both words, but the text it stores has them joined
    into one, which is the only word a later reading of the store can
    find. *)
Theorem words_on_two_lines_are_stored_joined :
  forall a b,
    a <> "" -> b <> "" ->
    all_chars is_letter a = true -> all_chars is_letter b = true ->
    let text := (a ++ String Pipeline.carriage_return (String Pipeline.newline b))%string in
    findall word_pattern text = [a; b] /\
    cleaned text = (a ++ b)%string /\
    findall word_pattern (cleaned text) = [(a ++ b)%string].
Proof.
  intros a b Ha Hb Hla Hlb text. subst text.
  assert (Hclean : cleaned (a ++ String Pipeline.carriage_return
                                (String Pipeline.newline b)) = (a ++ b)%string).
  { unfold cleaned. rewrite replace_removes_line_breaks, without_line_breaks_app.
    cbn [without_line_breaks is_line_break Pipeline.carriage_return Pipeline.newline
         Ascii.eqb Bool.eqb orb].
    rewrite !without_line_breaks_letters by assumption. reflexivity. }
  split; [|split; [exact Hclean|]].
  - rewrite findall_words. unfold whole_tokens, tokens.
    rewrite (tokens_from_run a _ "" (all_chars_impl _ _ a letter_is_word Hla)).
    cbn [append tokens_from].
    replace (is_word Pipeline.carriage_return) with false by reflexivity.
    replace (is_word Pipeline.newline) with false by reflexivity.
    cbn [close_token app]. fold (tokens b).
    rewrite filter_app. fold (whole_tokens is_letter b).
    rewrite (whole_tokens_single b Hb Hlb).
    destruct a as [|c a]; [contradiction|]. cbn [close_token filter].
    rewrite Hla. reflexivity.
  - rewrite Hclean, findall_words. apply whole_tokens_single.
    + destruct a; [contradiction|discriminate].
    + rewrite all_chars_app, Hla, Hlb. reflexivity.
Qed.

Lemma words_on_two_lines_are_stored_joined_witness :
  findall word_pattern Scenario.hello_world = ["Hello"; "World"] /\
  cleaned Scenario.hello_world = "HelloWorld" /\
  findall word_pattern (cleaned Scenario.hello_world) = ["HelloWorld"].
Proof.
  apply (words_on_two_lines_are_stored_joined "Hello" "World");
    try discriminate; reflexivity.
Defined.

(** Signing up and logging in at the prompts compose, for any two lines
    typed, empty ones included, since nothing is validated there: when the
    username typed is free, [create_user] creates the account with exactly
    the two lines, and an interactive [login] in which the same two lines
    are typed returns that username on its first turn. *)
Theorem interactive_signup_then_login :
  forall u p rest w,
    healthy w ->
    stdin w = u :: p :: u :: p :: rest ->
    find (matches (ByUsername u)) (users w) = None ->
    exists w1 w2,
      create_user None None w = (Ok (u, p), w1) /\
      users w1 = users w ++ [Doc u p []] /\
      login 1 None None w1 = Some (Ok u, w2) /\
      users w2 = users w1 /\ stdin w2 = rest.
Proof.
  intros u p rest w Hh Hin Hfree.
  pose proof (create_user_typed u p (u :: p :: rest) w Hh Hin) as Hcreate.
  rewrite Hfree in Hcreate.
  eexists. eexists. split; [exact Hcreate|]. split; [reflexivity|].
  cbn [login].
  erewrite (login_turn_typed u p rest); [|reflexivity|reflexivity].
  cbn [users]. rewrite (find_credentials_after_insert u p p _ Hfree), String.eqb_refl.
  split; [reflexivity|]. split; reflexivity.
Qed.

Lemma interactive_signup_then_login_witness :
  let w := Scenario.world_of [Doc "u1" "p1" []] [""; ""; ""; ""; "left"] 200 JNull in
  exists w1 w2,
    create_user None None w = (Ok ("", ""), w1) /\
    users w1 = users w ++ [Doc "" "" []] /\
    login 1 None None w1 = Some (Ok "", w2) /\
    users w2 = users w1 /\ stdin w2 = ["left"].
Proof.
  intros w.
  apply (interactive_signup_then_login "" "" ["left"] w); reflexivity.
Defined.

(** The append of line 200 accumulates and never merges: two texts
    ingested one after the other for the same user end up as two records
    at the end of the content, in that order, also when the two texts are
    the same. *)
Theorem ingest_twice_stores_two_records :
  forall u t1 t2 w d,
    healthy w ->
    find (matches (ByUsername u)) (users w) = Some d ->
    let w1 := snd (Pipeline.ingest u (JStr t1) w) in
    let w2 := snd (Pipeline.ingest u (JStr t2) w1) in
    find (matches (ByUsername u)) (users w2)
    = Some (Doc (username d) (password d)
                (extracted_content d ++ [cleaned t1; cleaned t2])) /\
    length (users w2) = length (users w).
Proof.
  intros u t1 t2 w d Hh Hd w1 w2. subst w2 w1. unfold healthy in Hh.
  unfold Pipeline.ingest, update_one_push, db_call. unfold_monad.
  rewrite Hh. cbn [fst snd users db_faults emit set_users]. rewrite Hh.
  cbn [fst snd users db_faults emit set_users]. fold (cleaned t1) (cleaned t2).
  split.
  - rewrite (find_push_first u (cleaned t2) _ _ (find_push_first u (cleaned t1) _ _ Hd)).
    cbn [username password extracted_content]. rewrite <- app_assoc. reflexivity.
  - rewrite !length_push_first. reflexivity.
Qed.

Lemma ingest_twice_stores_two_records_witness :
  let w := Scenario.world_of [Doc "u1" "p1" ["old"]] [] 200 JNull in
  let w1 := snd (Pipeline.ingest "u1" (JStr "same") w) in
  let w2 := snd (Pipeline.ingest "u1" (JStr "same") w1) in
  find (matches (ByUsername "u1")) (users w2)
  = Some (Doc "u1" "p1" (["old"] ++ [cleaned "same"; cleaned "same"])) /\
  length (users w2) = length (users w).
Proof.
  intros w.
  apply (ingest_twice_stores_two_records "u1" "same" "same" w (Doc "u1" "p1" ["old"]));
    reflexivity.
Defined.
